(** * fabric-common/lib/Commit.js: the commit action of the Fabric client SDK

    A shallow embedding of [Commit.build] and [Commit.send] and the
    properties of the endorsement-to-envelope transformation and of the
    broadcast fallback policy.

    Conventions of the embedding.
    - A JavaScript value that the source tests for presence ([if (x)],
      [x && ...], a default parameter) is an [option]; [None] stands for
      [undefined]/[null].  An array is a [list]; an empty array is a
      present value ([Some []]) and is truthy, as in JavaScript.
    - A [throw] (and, inside the [async] method [send], a rejected promise)
      is the outcome [Thrown e]; a normal return is [Returned v].
    - Methods that assign to [this] are state transformers over the
      [Commit] object; [send] is a state transformer over the trace of the
      calls it makes to its collaborators (handler, channel, committers).
    - [logger] calls have no effect on the results and are left out. *)

From Stdlib Require Import List String ZArith Bool Arith Lia Setoid.
From Stdlib Require Import Strings.Byte.
Import ListNotations.

Set Implicit Arguments.

(** ** JavaScript outcomes and the state-and-exception monad *)

Definition bytes := list byte.

Inductive JsError : Type :=
| Error (message : string)
| TypeError (message : string).

Inductive Outcome (A : Type) : Type :=
| Returned (value : A)
| Thrown (e : JsError).

Arguments Returned {A} value.
Arguments Thrown {A} e.

Definition M (S A : Type) : Type := S -> Outcome A * S.

Definition ret {S A : Type} (a : A) : M S A := fun s => (Returned a, s).

Definition throw {S A : Type} (e : JsError) : M S A := fun s => (Thrown e, s).

Definition bind {S A B : Type} (c : M S A) (k : A -> M S B) : M S B :=
  fun s =>
    match c s with
    | (Returned a, s') => k a s'
    | (Thrown e, s') => (Thrown e, s')
    end.

Definition get {S : Type} : M S S := fun s => (Returned s, s).

Definition modify {S : Type} (f : S -> S) : M S unit := fun s => (Returned tt, f s).

Definition lift {S A : Type} (o : Outcome A) : M S A := fun s => (o, s).

Declare Scope js_scope.
Delimit Scope js_scope with js.
Notation "x <- c ;; k" := (bind c (fun x => k))
  (at level 61, c at next level, right associativity) : js_scope.
Notation "c ;;; k" := (bind c (fun _ => k))
  (at level 61, right associativity) : js_scope.

(** The errors the source raises, under the names the specification gives
    them.  All of them are plain [Error] objects told apart by message. *)

Definition NotEndorsedError : JsError := Error "Proposal has not been endorsed".

Definition NoValidEndorsementsError : JsError := Error "No valid endorsements found".

Definition MissingParameterError (name : string) : JsError :=
  Error ("Missing " ++ name ++ " parameter").

(** Modelled from the spec: Utils.checkParameter is not among the sources;
    it fails with MissingParameterError for the named parameter.  The
    wording of the message follows the one literal the source has,
    ['Missing targets parameter'] in [send]. *)
Definition checkParameter {S A : Type} (name : string) : M S A :=
  throw (MissingParameterError name).

(** Reading a property of [null]/[undefined]. *)
Definition deref {S A : Type} (property : string) (v : option A) : M S A :=
  match v with
  | Some a => ret a
  | None => throw (TypeError ("Cannot read property '" ++ property ++ "' of undefined"))
  end.

(** ** The wire schema (package fabric-protos) *)

Module protos.

Module Endorsement.
Record t : Type := { endorser : bytes; signature : bytes }.
End Endorsement.

Module Response.
Record t : Type := { status : Z; message : string; payload : bytes }.
End Response.

Module ProposalResponse.
Record t : Type :=
  { response : option Response.t;
    payload : bytes;
    endorsement : Endorsement.t }.
End ProposalResponse.

Module Proposal.
Record t : Type := { header : bytes; payload : bytes; extension : bytes }.
Definition getPayload (p : t) : bytes := payload p.
End Proposal.

Module ChaincodeProposalPayload.
Record t : Type := { input : bytes; TransientMap : list (string * bytes) }.
Definition new : t := {| input := []; TransientMap := [] |}.
Definition setInput (v : bytes) (m : t) : t :=
  {| input := v; TransientMap := TransientMap m |}.
End ChaincodeProposalPayload.

Module ChaincodeEndorsedAction.
Record t : Type :=
  { proposal_response_payload : bytes;
    endorsements : list Endorsement.t }.
Definition new : t := {| proposal_response_payload := []; endorsements := [] |}.
Definition setProposalResponsePayload (v : bytes) (m : t) : t :=
  {| proposal_response_payload := v; endorsements := endorsements m |}.
Definition setEndorsements (v : list Endorsement.t) (m : t) : t :=
  {| proposal_response_payload := proposal_response_payload m; endorsements := v |}.
End ChaincodeEndorsedAction.

Module ChaincodeActionPayload.
Record t : Type :=
  { chaincode_proposal_payload : bytes;
    action : option ChaincodeEndorsedAction.t }.
Definition new : t := {| chaincode_proposal_payload := []; action := None |}.
Definition setAction (v : ChaincodeEndorsedAction.t) (m : t) : t :=
  {| chaincode_proposal_payload := chaincode_proposal_payload m; action := Some v |}.
Definition setChaincodeProposalPayload (v : bytes) (m : t) : t :=
  {| chaincode_proposal_payload := v; action := action m |}.
End ChaincodeActionPayload.

Module TransactionAction.
Record t : Type := { header : bytes; payload : bytes }.
Definition new : t := {| header := []; payload := [] |}.
Definition setHeader (v : bytes) (m : t) : t := {| header := v; payload := payload m |}.
Definition setPayload (v : bytes) (m : t) : t := {| header := header m; payload := v |}.
End TransactionAction.

Module Transaction.
Record t : Type := { actions : list TransactionAction.t }.
Definition new : t := {| actions := [] |}.
Definition setActions (v : list TransactionAction.t) (m : t) : t := {| actions := v |}.
End Transaction.

End protos.

Module common.

Module Header.
Record t : Type := { channel_header : bytes; signature_header : bytes }.
Definition getSignatureHeader (h : t) : bytes := signature_header h.
End Header.

Module Payload.
Record t : Type := { header : option Header.t; data : bytes }.
Definition new : t := {| header := None; data := [] |}.
Definition setHeader (v : Header.t) (m : t) : t := {| header := Some v; data := data m |}.
Definition setData (v : bytes) (m : t) : t := {| header := header m; data := v |}.
End Payload.

End common.

(** The generated message classes serialize with [toBuffer] and parse with
    the static [decode], which throws on bytes that are not a message.
    The binary schema is external to the repository: the embedding is
    parametric in it.  [decode] is a function of the bytes it is given: what
    the library does to the buffer object it reads from (its read position
    after the call) is not part of the model, so the properties below speak
    of one [build] from a record whose proposal payload has not been read
    yet, and none of them is about building twice from one record object. *)
Class ProtoMessage (T : Type) : Type :=
  { toBuffer : T -> bytes;
    decode : bytes -> Outcome T }.

(** The schema's round trip: decoding what was encoded gives the message
    back. *)
Definition Lawful (T : Type) {P : ProtoMessage T} : Prop :=
  forall m : T, decode (toBuffer m) = Returned m.

Arguments Lawful T {P}.

(** ** The collaborators of the commit action *)

Module IdentityContext.
Record t : Type := { name : string }.
End IdentityContext.

(** The Endorsement object handed over by the proposal action: the
    action metadata captured when the proposal was built, and the
    responses collected when it was sent ([None] until then). *)
Module Endorsement.
Record Action : Type :=
  { header : common.Header.t;
    proposal : protos.Proposal.t }.
Record t : Type :=
  { _action : Action;
    _proposalResponses : option (list (option protos.ProposalResponse.t)) }.
End Endorsement.

Record CommitBuildRequest : Type :=
  { endorsement : option Endorsement.t }.

(** What [getSignedEnvelope] hands to the transport. *)
Module Envelope.
Record t : Type := { signature : bytes; payload : bytes }.
End Envelope.

(** The outcome of a broadcast: [{status, message}].  The placeholder
    [bad_result] of [send] has a status and nothing else. *)
Record BroadcastResult : Type := { status : string; message : option string }.

(** A committer: [sendBroadcast(envelope, timeout)] resolves to an outcome
    or rejects with a transport error. *)
Record Committer : Type :=
  { committer_name : string;
    sendBroadcast : Envelope.t -> option Z -> Outcome BroadcastResult }.

Inductive Target : Type :=
| ByName (target_name : string)
| ByReference (committer : Committer).

(** A commit handler: [commit(envelope, request)].  The request it is passed
    is the one it came in; it is given here by its other two fields. *)
Record Handler : Type :=
  { commit : Envelope.t -> option (list Target) -> option Z -> Outcome BroadcastResult }.

Record CommitSendRequest : Type :=
  { handler : option Handler;
    targets : option (list Target);
    requestTimeout : option Z }.

(** The channel resolves targets to committers; Channel.js is not among the
    sources, so the resolution is a field of the channel object and the
    properties below hold for every resolution. *)
Record Channel : Type :=
  { channel_name : string;
    getTargetCommitters : list Target -> Outcome (list Committer) }.

(** ** The trace of calls to the collaborators

    Every call that leaves the commit action (to the handler, to the
    channel to resolve targets, to a committer) is recorded, in order, with
    the arguments it was made with. *)

Inductive NetEvent : Type :=
| CalledHandler (h : Handler) (envelope : Envelope.t)
    (request_targets : option (list Target)) (timeout : option Z)
| ResolvedTargets (ch : Channel) (request_targets : list Target)
| Broadcast (committer : Committer) (envelope : Envelope.t) (timeout : option Z).

Definition Net : Type := list NetEvent.

Definition call {A : Type} (ev : NetEvent) (o : Outcome A) : M Net A :=
  fun net => (o, net ++ [ev]).

(** JavaScript's [a[i]]: [undefined] out of range, and a [null] entry stays
    [null]. *)
Definition array_get {A : Type} (a : list (option A)) (i : nat) : option A :=
  match nth_error a i with
  | Some (Some x) => Some x
  | _ => None
  end.

(** ** The Commit object *)

Module Commit.

Record Action : Type := { payload : option common.Payload.t }.

Record t : Type :=
  { chaincodeName : string;
    channel : Channel;
    _endorsement : option Endorsement.t;
    _action : Action;
    _payload : option bytes;
    _signature : option bytes }.

Definition set_endorsement (v : option Endorsement.t) (this : t) : t :=
  {| chaincodeName := chaincodeName this; channel := channel this;
     _endorsement := v; _action := _action this;
     _payload := _payload this; _signature := _signature this |}.

Definition set_action_payload (v : common.Payload.t) (this : t) : t :=
  {| chaincodeName := chaincodeName this; channel := channel this;
     _endorsement := _endorsement this; _action := {| payload := Some v |};
     _payload := _payload this; _signature := _signature this |}.

Definition set_payload (v : bytes) (this : t) : t :=
  {| chaincodeName := chaincodeName this; channel := channel this;
     _endorsement := _endorsement this; _action := _action this;
     _payload := Some v; _signature := _signature this |}.

Definition set_signature (v : bytes) (this : t) : t :=
  {| chaincodeName := chaincodeName this; channel := channel this;
     _endorsement := _endorsement this; _action := _action this;
     _payload := _payload this; _signature := Some v |}.

(** [new Commit(chaincodeName, channel, endorsement)], lines 33-39.  The
    inherited constructor is not among the sources; a new action has
    nothing built and nothing signed (the specification's Unbuilt). *)
Definition constructor (chaincodeName : string) (channel : Channel)
  (endorsement : option Endorsement.t) : t :=
  {| chaincodeName := chaincodeName; channel := channel;
     _endorsement := endorsement; _action := {| payload := None |};
     _payload := None; _signature := None |}.

(** Modelled from the spec: ServiceAction._reset is inherited and not among
    the sources.  The spec: the accumulated payload is "cleared/reset at the
    start of each build", and the signed envelope is "derived from payload +
    signature; present only after sign succeeds".  The reset leaves the
    action with no built message, no payload bytes and no signature. *)
Definition _reset (this : t) : t :=
  {| chaincodeName := chaincodeName this; channel := channel this;
     _endorsement := _endorsement this; _action := {| payload := None |};
     _payload := None; _signature := None |}.

(** Modelled from the spec: the error of a method called out of lifecycle
    order.  The spec names it and fixes no message; it is an [Error] whose
    message differs from those of the other errors. *)
Definition PreconditionError : JsError := Error "Missing signature - build not signed".

(** Modelled from the spec: ServiceAction.getSignedEnvelope is inherited and
    not among the sources.  The spec: "send requires a non-empty signed
    envelope", "fails with PreconditionError otherwise"; the envelope is the
    signature over the payload together with the payload. *)
Definition getSignedEnvelope (this : t) : Outcome Envelope.t :=
  match _payload this, _signature this with
  | Some p, Some s => Returned {| Envelope.signature := s; Envelope.payload := p |}
  | _, _ => Thrown PreconditionError
  end.

(** The lifecycle states of the specification, read off the object. *)
Definition unbuilt (this : t) : Prop :=
  payload (_action this) = None /\ _payload this = None /\ _signature this = None.

(** The loop of [build] (lines 72-77): the endorsement of every response
    whose status is 200 is pushed, in the order of the array. *)
Definition collect_endorsements
  (proposalResponses : list (option protos.ProposalResponse.t))
  : list protos.Endorsement.t :=
  fold_left
    (fun endorsements proposalResponse =>
       match proposalResponse with
       | Some pr =>
           match protos.ProposalResponse.response pr with
           | Some r =>
               if (protos.Response.status r =? 200)%Z
               then (endorsements ++ [protos.ProposalResponse.endorsement pr])%list
               else endorsements
           | None => endorsements
           end
       | None => endorsements
       end)
    proposalResponses [].

Section Schema.

Context {PM_ChaincodeProposalPayload : ProtoMessage protos.ChaincodeProposalPayload.t}.
Context {PM_ChaincodeActionPayload : ProtoMessage protos.ChaincodeActionPayload.t}.
Context {PM_Transaction : ProtoMessage protos.Transaction.t}.
Context {PM_Payload : ProtoMessage common.Payload.t}.

Local Open Scope js_scope.

(** [build(idContext, request)], lines 55-118.  [_reset] leaves
    [_endorsement] in place, so the record read before the reset is the one
    the later lines read. *)
Definition build (idContext : option IdentityContext.t) (request : CommitBuildRequest)
  : M t bytes :=
  idContext <- match idContext with
               | Some i => ret i
               | None => checkParameter "idContext"
               end ;;
  match endorsement request with
  | Some e => modify (set_endorsement (Some e))
  | None => ret tt
  end ;;;
  this <- get ;;
  this_endorsement <- match _endorsement this with
                      | Some e => ret e
                      | None => checkParameter "endorsement"
                      end ;;
  proposalResponses <- match Endorsement._proposalResponses this_endorsement with
                       | Some rs => ret rs
                       | None => throw (Error "Proposal has not been endorsed")
                       end ;;
  modify _reset ;;;
  let endorsements := collect_endorsements proposalResponses in
  if (List.length endorsements <? 1)%nat
  then throw (Error "No valid endorsements found")
  else
    proposalResponse <- deref "payload" (array_get proposalResponses 0) ;;
    let chaincodeEndorsedAction :=
      protos.ChaincodeEndorsedAction.setEndorsements endorsements
        (protos.ChaincodeEndorsedAction.setProposalResponsePayload
           (protos.ProposalResponse.payload proposalResponse)
           protos.ChaincodeEndorsedAction.new) in
    let chaincodeActionPayload :=
      protos.ChaincodeActionPayload.setAction chaincodeEndorsedAction
        protos.ChaincodeActionPayload.new in
    originalChaincodeProposalPayload <-
      lift (decode (protos.Proposal.getPayload
                      (Endorsement.proposal (Endorsement._action this_endorsement)))) ;;
    let chaincodeProposalPayloadNoTrans :=
      protos.ChaincodeProposalPayload.setInput
        (protos.ChaincodeProposalPayload.input originalChaincodeProposalPayload)
        protos.ChaincodeProposalPayload.new in
    let chaincodeActionPayload :=
      protos.ChaincodeActionPayload.setChaincodeProposalPayload
        (toBuffer chaincodeProposalPayloadNoTrans) chaincodeActionPayload in
    let transactionAction :=
      protos.TransactionAction.setPayload (toBuffer chaincodeActionPayload)
        (protos.TransactionAction.setHeader
           (common.Header.getSignatureHeader
              (Endorsement.header (Endorsement._action this_endorsement)))
           protos.TransactionAction.new) in
    let actions := ([] ++ [transactionAction])%list in
    let transaction := protos.Transaction.setActions actions protos.Transaction.new in
    let action_payload :=
      common.Payload.setData (toBuffer transaction)
        (common.Payload.setHeader
           (Endorsement.header (Endorsement._action this_endorsement))
           common.Payload.new) in
    modify (set_action_payload action_payload) ;;;
    modify (set_payload (toBuffer action_payload)) ;;;
    ret (toBuffer action_payload).

End Schema.

(** The loop of [send] (lines 164-174): each committer in turn; the first
    outcome with status SUCCESS is returned at once, any other outcome
    replaces [bad_result]; a rejected [sendBroadcast] is not caught. *)
Fixpoint broadcast_loop (envelope : Envelope.t) (requestTimeout : option Z)
  (committers : list Committer) (bad_result : BroadcastResult)
  : M Net BroadcastResult :=
  match committers with
  | [] => ret bad_result
  | committer :: rest =>
      (result <- call (Broadcast committer envelope requestTimeout)
                   (sendBroadcast committer envelope requestTimeout) ;;
       if (status result =? "SUCCESS")%string
       then ret result
       else broadcast_loop envelope requestTimeout rest result)%js
  end.

(** [send(request)], lines 146-178. *)
Definition send (this : t) (request : CommitSendRequest) : M Net BroadcastResult :=
  (envelope <- lift (getSignedEnvelope this) ;;
   match handler request with
   | Some h =>
       result <- call (CalledHandler h envelope (targets request) (requestTimeout request))
                   (commit h envelope (targets request) (requestTimeout request)) ;;
       ret result
   | None =>
       match targets request with
       | Some request_targets =>
           committers <- call (ResolvedTargets (channel this) request_targets)
                           (getTargetCommitters (channel this) request_targets) ;;
           let bad_result := {| status := "UNKNOWN"; message := None |} in
           broadcast_loop envelope (requestTimeout request) committers bad_result
       | None => throw (Error "Missing targets parameter")
       end
   end)%js.

(** [toString()], lines 183-186. *)
Definition toString (this : t) : string :=
  ("Commit: {chaincodeName: " ++ chaincodeName this
   ++ ", channel: " ++ channel_name (channel this) ++ "}")%string.

End Commit.

(** ** A reference schema

    A small self-delimiting binary encoding of the messages, standing in
    for the protobuf schema in the worked examples: lengths and counts in
    unary, fields in declaration order.  It is lawful (the round-trip
    lemmas are below), so the assumptions made on the schema can be met. *)

Module RefSchema.

Definition Parser (A : Type) : Type := bytes -> option (A * bytes).

Definition pret {A : Type} (a : A) : Parser A := fun s => Some (a, s).

Definition pbind {A B : Type} (p : Parser A) (k : A -> Parser B) : Parser B :=
  fun s => match p s with
           | Some (a, rest) => k a rest
           | None => None
           end.

Definition put_nat (n : nat) : bytes := (repeat x01 n ++ [x00])%list.

Fixpoint get_nat (s : bytes) : option (nat * bytes) :=
  match s with
  | [] => None
  | b :: s' =>
      if Byte.eqb b x00 then Some (0, s')
      else match get_nat s' with
           | Some (n, rest) => Some (S n, rest)
           | None => None
           end
  end.

Definition put_bytes (b : bytes) : bytes := (put_nat (List.length b) ++ b)%list.

Definition get_bytes : Parser bytes :=
  pbind get_nat (fun n s =>
    if (List.length s <? n)%nat then None else Some (firstn n s, skipn n s)).

Definition put_string (s : string) : bytes := put_bytes (list_byte_of_string s).

Definition get_string : Parser string :=
  pbind get_bytes (fun b => pret (string_of_list_byte b)).

Fixpoint get_many {A : Type} (get_item : Parser A) (n : nat) : Parser (list A) :=
  match n with
  | O => pret []
  | S n' => pbind get_item (fun a => pbind (get_many get_item n') (fun l => pret (a :: l)))
  end.

Definition put_list {A : Type} (put_item : A -> bytes) (l : list A) : bytes :=
  (put_nat (List.length l) ++ List.concat (map put_item l))%list.

Definition get_list {A : Type} (get_item : Parser A) : Parser (list A) :=
  pbind get_nat (get_many get_item).

Definition put_option {A : Type} (put_item : A -> bytes) (o : option A) : bytes :=
  match o with
  | None => [x00]
  | Some a => x01 :: put_item a
  end.

Definition get_option {A : Type} (get_item : Parser A) : Parser (option A) :=
  fun s => match s with
           | [] => None
           | b :: s' =>
               if Byte.eqb b x00 then Some (None, s')
               else pbind get_item (fun a => pret (Some a)) s'
           end.

Definition put_entry (kv : string * bytes) : bytes :=
  (put_string (fst kv) ++ put_bytes (snd kv))%list.

Definition get_entry : Parser (string * bytes) :=
  pbind get_string (fun k => pbind get_bytes (fun v => pret (k, v))).

Definition put_ChaincodeProposalPayload (m : protos.ChaincodeProposalPayload.t) : bytes :=
  (put_bytes (protos.ChaincodeProposalPayload.input m)
   ++ put_list put_entry (protos.ChaincodeProposalPayload.TransientMap m))%list.

Definition get_ChaincodeProposalPayload : Parser protos.ChaincodeProposalPayload.t :=
  pbind get_bytes (fun i => pbind (get_list get_entry) (fun tm =>
    pret {| protos.ChaincodeProposalPayload.input := i;
            protos.ChaincodeProposalPayload.TransientMap := tm |})).

Definition put_Endorsement (m : protos.Endorsement.t) : bytes :=
  (put_bytes (protos.Endorsement.endorser m)
   ++ put_bytes (protos.Endorsement.signature m))%list.

Definition get_Endorsement : Parser protos.Endorsement.t :=
  pbind get_bytes (fun e => pbind get_bytes (fun s =>
    pret {| protos.Endorsement.endorser := e; protos.Endorsement.signature := s |})).

Definition put_ChaincodeEndorsedAction (m : protos.ChaincodeEndorsedAction.t) : bytes :=
  (put_bytes (protos.ChaincodeEndorsedAction.proposal_response_payload m)
   ++ put_list put_Endorsement (protos.ChaincodeEndorsedAction.endorsements m))%list.

Definition get_ChaincodeEndorsedAction : Parser protos.ChaincodeEndorsedAction.t :=
  pbind get_bytes (fun p => pbind (get_list get_Endorsement) (fun es =>
    pret {| protos.ChaincodeEndorsedAction.proposal_response_payload := p;
            protos.ChaincodeEndorsedAction.endorsements := es |})).

Definition put_ChaincodeActionPayload (m : protos.ChaincodeActionPayload.t) : bytes :=
  (put_bytes (protos.ChaincodeActionPayload.chaincode_proposal_payload m)
   ++ put_option put_ChaincodeEndorsedAction (protos.ChaincodeActionPayload.action m))%list.

Definition get_ChaincodeActionPayload : Parser protos.ChaincodeActionPayload.t :=
  pbind get_bytes (fun p => pbind (get_option get_ChaincodeEndorsedAction) (fun a =>
    pret {| protos.ChaincodeActionPayload.chaincode_proposal_payload := p;
            protos.ChaincodeActionPayload.action := a |})).

Definition put_TransactionAction (m : protos.TransactionAction.t) : bytes :=
  (put_bytes (protos.TransactionAction.header m)
   ++ put_bytes (protos.TransactionAction.payload m))%list.

Definition get_TransactionAction : Parser protos.TransactionAction.t :=
  pbind get_bytes (fun h => pbind get_bytes (fun p =>
    pret {| protos.TransactionAction.header := h; protos.TransactionAction.payload := p |})).

Definition put_Transaction (m : protos.Transaction.t) : bytes :=
  put_list put_TransactionAction (protos.Transaction.actions m).

Definition get_Transaction : Parser protos.Transaction.t :=
  pbind (get_list get_TransactionAction) (fun l =>
    pret {| protos.Transaction.actions := l |}).

Definition put_Header (m : common.Header.t) : bytes :=
  (put_bytes (common.Header.channel_header m)
   ++ put_bytes (common.Header.signature_header m))%list.

Definition get_Header : Parser common.Header.t :=
  pbind get_bytes (fun c => pbind get_bytes (fun s =>
    pret {| common.Header.channel_header := c; common.Header.signature_header := s |})).

Definition put_Payload (m : common.Payload.t) : bytes :=
  (put_option put_Header (common.Payload.header m)
   ++ put_bytes (common.Payload.data m))%list.

Definition get_Payload : Parser common.Payload.t :=
  pbind (get_option get_Header) (fun h => pbind get_bytes (fun d =>
    pret {| common.Payload.header := h; common.Payload.data := d |})).

(** A parser undoes a printer when it reads back what was printed and
    leaves what follows. *)
Definition round_trips {A : Type} (put_item : A -> bytes) (get_item : Parser A) : Prop :=
  forall a rest, get_item (put_item a ++ rest)%list = Some (a, rest).

(** A whole buffer is a message when the parser consumes all of it. *)
Definition parse_all {A : Type} (p : Parser A) (s : bytes) : Outcome A :=
  match p s with
  | Some (a, []) => Returned a
  | _ => Thrown (Error "Illegal buffer")
  end.

Definition ChaincodeProposalPayload : ProtoMessage protos.ChaincodeProposalPayload.t :=
  {| toBuffer := put_ChaincodeProposalPayload;
     decode := parse_all get_ChaincodeProposalPayload |}.

Definition ChaincodeActionPayload : ProtoMessage protos.ChaincodeActionPayload.t :=
  {| toBuffer := put_ChaincodeActionPayload;
     decode := parse_all get_ChaincodeActionPayload |}.

Definition Transaction : ProtoMessage protos.Transaction.t :=
  {| toBuffer := put_Transaction; decode := parse_all get_Transaction |}.

Definition Payload : ProtoMessage common.Payload.t :=
  {| toBuffer := put_Payload; decode := parse_all get_Payload |}.

(** [Commit.build] over the reference schema. *)
Definition build : option IdentityContext.t -> CommitBuildRequest -> M Commit.t bytes :=
  @Commit.build ChaincodeProposalPayload ChaincodeActionPayload Transaction Payload.

End RefSchema.

(** ** The specification's words

    The envelope as the specification describes it (section 4.3, steps 3
    to 7), written declaratively; the theorems below compare what [build]
    computes with these. *)

Module Spec.

(** "responses whose status equals the success code (200)". *)
Definition is_success (entry : option protos.ProposalResponse.t) : bool :=
  match entry with
  | Some pr =>
      match protos.ProposalResponse.response pr with
      | Some r => (protos.Response.status r =? 200)%Z
      | None => false
      end
  | None => false
  end.

Fixpoint successful_responses (entries : list (option protos.ProposalResponse.t))
  : list protos.ProposalResponse.t :=
  match entries with
  | [] => []
  | Some pr :: rest =>
      if is_success (Some pr) then pr :: successful_responses rest
      else successful_responses rest
  | None :: rest => successful_responses rest
  end.

(** "keep only responses whose status equals the success code and extract
    each one's endorsement signature blob". *)
Definition filtered_endorsements (entries : list (option protos.ProposalResponse.t))
  : list protos.Endorsement.t :=
  map protos.ProposalResponse.endorsement (successful_responses entries).

Definition has_success (entries : list (option protos.ProposalResponse.t)) : Prop :=
  exists pr, In (Some pr) entries /\ is_success (Some pr) = true.

(** The record [build] works on: the request's, else the one given to the
    constructor. *)
Definition resolved_endorsement (this : Commit.t) (request : CommitBuildRequest)
  : option Endorsement.t :=
  match endorsement request with
  | Some e => Some e
  | None => Commit._endorsement this
  end.

Definition remember_endorsement (this : Commit.t) (request : CommitBuildRequest)
  : Commit.t :=
  match endorsement request with
  | Some e => Commit.set_endorsement (Some e) this
  | None => this
  end.

(** The bytes of the original proposal's payload. *)
Definition original_payload_bytes (e : Endorsement.t) : bytes :=
  protos.Proposal.getPayload (Endorsement.proposal (Endorsement._action e)).

(** "retain only the public-input subfield". *)
Definition trimmed_proposal_payload (original : protos.ChaincodeProposalPayload.t)
  : protos.ChaincodeProposalPayload.t :=
  {| protos.ChaincodeProposalPayload.input := protos.ChaincodeProposalPayload.input original;
     protos.ChaincodeProposalPayload.TransientMap := [] |}.

Section Assembly.

Context {PM_ChaincodeProposalPayload : ProtoMessage protos.ChaincodeProposalPayload.t}.
Context {PM_ChaincodeActionPayload : ProtoMessage protos.ChaincodeActionPayload.t}.
Context {PM_Transaction : ProtoMessage protos.Transaction.t}.
Context {PM_Payload : ProtoMessage common.Payload.t}.

Variable e : Endorsement.t.
Variable entries : list (option protos.ProposalResponse.t).
Variable first : protos.ProposalResponse.t.
Variable original : protos.ChaincodeProposalPayload.t.

(** "endorsed-action (response payload + filtered endorsement list)". *)
Definition endorsed_action : protos.ChaincodeEndorsedAction.t :=
  {| protos.ChaincodeEndorsedAction.proposal_response_payload :=
       protos.ProposalResponse.payload first;
     protos.ChaincodeEndorsedAction.endorsements := filtered_endorsements entries |}.

(** "chaincode-action-payload (endorsed-action + trimmed proposal payload)". *)
Definition chaincode_action_payload : protos.ChaincodeActionPayload.t :=
  {| protos.ChaincodeActionPayload.chaincode_proposal_payload :=
       toBuffer (trimmed_proposal_payload original);
     protos.ChaincodeActionPayload.action := Some endorsed_action |}.

(** "transaction-action (original header + chaincode-action-payload)". *)
Definition transaction_action : protos.TransactionAction.t :=
  {| protos.TransactionAction.header :=
       common.Header.signature_header (Endorsement.header (Endorsement._action e));
     protos.TransactionAction.payload := toBuffer chaincode_action_payload |}.

(** "transaction (single-element action list)". *)
Definition transaction : protos.Transaction.t :=
  {| protos.Transaction.actions := [transaction_action] |}.

(** "final payload (original header + serialized transaction)". *)
Definition final_payload : common.Payload.t :=
  {| common.Payload.header := Some (Endorsement.header (Endorsement._action e));
     common.Payload.data := toBuffer transaction |}.

End Assembly.

(** The action after a successful [build]: the built message and its
    bytes are stored, and no signature is left. *)
Definition built (this : Commit.t) (e : Endorsement.t) (msg : common.Payload.t)
  (buffer : bytes) : Commit.t :=
  {| Commit.chaincodeName := Commit.chaincodeName this;
     Commit.channel := Commit.channel this;
     Commit._endorsement := Some e;
     Commit._action := {| Commit.payload := Some msg |};
     Commit._payload := Some buffer;
     Commit._signature := None |}.

Section Run.

Context {PM_ChaincodeProposalPayload : ProtoMessage protos.ChaincodeProposalPayload.t}.
Context {PM_ChaincodeActionPayload : ProtoMessage protos.ChaincodeActionPayload.t}.
Context {PM_Transaction : ProtoMessage protos.Transaction.t}.
Context {PM_Payload : ProtoMessage common.Payload.t}.

(** The run of [build] case by case, in the order the source tests. *)
Definition build_outcome (this : Commit.t) (request : CommitBuildRequest)
  : Outcome bytes * Commit.t :=
  match resolved_endorsement this request with
  | None => (Thrown (MissingParameterError "endorsement"), this)
  | Some e =>
      let remembered := remember_endorsement this request in
      match Endorsement._proposalResponses e with
      | None => (Thrown NotEndorsedError, remembered)
      | Some entries =>
          match filtered_endorsements entries with
          | [] => (Thrown NoValidEndorsementsError, Commit._reset remembered)
          | _ :: _ =>
              match array_get entries 0 with
              | None =>
                  (Thrown (TypeError "Cannot read property 'payload' of undefined"),
                   Commit._reset remembered)
              | Some first =>
                  match decode (original_payload_bytes e) with
                  | Thrown err => (Thrown err, Commit._reset remembered)
                  | Returned original =>
                      let msg := final_payload e entries first original in
                      (Returned (toBuffer msg), built this e msg (toBuffer msg))
                  end
              end
          end
      end
  end.

End Run.

(** A target that returns an outcome whose status is not SUCCESS. *)
Definition returns_failure (envelope : Envelope.t) (timeout : option Z)
  (committer : Committer) : Prop :=
  exists r, sendBroadcast committer envelope timeout = Returned r
            /\ status r <> "SUCCESS"%string.

(** One broadcast to each committer, in the order of the list. *)
Definition broadcasts (envelope : Envelope.t) (timeout : option Z)
  (committers : list Committer) : list NetEvent :=
  map (fun committer => Broadcast committer envelope timeout) committers.

(** The value [bad_result] starts with (lines 162-163). *)
Definition unknown_result : BroadcastResult :=
  {| status := "UNKNOWN"; message := None |}.

(** An outcome that ends the loop: a returned SUCCESS, or a rejection. *)
Definition stops (o : Outcome BroadcastResult) : Prop :=
  match o with
  | Returned r => status r = "SUCCESS"%string
  | Thrown _ => True
  end.

End Spec.

(** ** Worked data

    A small channel, a few endorsement records and committers, used by the
    examples that instantiate the theorems. *)

Module Example.

Definition idContext : IdentityContext.t := {| IdentityContext.name := "admin" |}.

Definition header : common.Header.t :=
  {| common.Header.channel_header := [x0a; x0b];
     common.Header.signature_header := [x0c; x0d; x0e] |}.

(** The original proposal payload carries a transient entry. *)
Definition original : protos.ChaincodeProposalPayload.t :=
  {| protos.ChaincodeProposalPayload.input := [x11; x12];
     protos.ChaincodeProposalPayload.TransientMap := [("secret"%string, [xff; xfe])] |}.

Definition action : Endorsement.Action :=
  {| Endorsement.header := header;
     Endorsement.proposal :=
       {| protos.Proposal.header := RefSchema.put_Header header;
          protos.Proposal.payload := RefSchema.put_ChaincodeProposalPayload original;
          protos.Proposal.extension := [] |} |}.

Definition proposalResponse (code : Z) (result signer : byte)
  : protos.ProposalResponse.t :=
  {| protos.ProposalResponse.response :=
       Some {| protos.Response.status := code;
               protos.Response.message := ""%string;
               protos.Response.payload := [] |};
     protos.ProposalResponse.payload := [result];
     protos.ProposalResponse.endorsement :=
       {| protos.Endorsement.endorser := [signer];
          protos.Endorsement.signature := [signer; signer] |} |}.

Definition response200 : protos.ProposalResponse.t := proposalResponse 200 x21 x31.

Definition response500 : protos.ProposalResponse.t := proposalResponse 500 x22 x32.

Definition record (responses : option (list (option protos.ProposalResponse.t)))
  : Endorsement.t :=
  {| Endorsement._action := action; Endorsement._proposalResponses := responses |}.

Definition request (responses : option (list (option protos.ProposalResponse.t)))
  : CommitBuildRequest :=
  {| endorsement := Some (record responses) |}.

Definition committer (label : string) (outcome : Outcome BroadcastResult) : Committer :=
  {| committer_name := label; sendBroadcast := fun _ _ => outcome |}.

Definition failed (label text : string) : Committer :=
  committer label (Returned {| status := "FAILED"; message := Some text |}).

Definition accepting (label : string) : Committer :=
  committer label (Returned {| status := "SUCCESS"; message := None |}).

(** A node that answers with the schema's own status [UNKNOWN]. *)
Definition undecided (label : string) : Committer :=
  committer label (Returned {| status := "UNKNOWN"; message := Some "no status"%string |}).

(** A node whose [sendBroadcast] rejects. *)
Definition unreachable (label : string) : Committer :=
  committer label (Thrown (Error "REQUEST TIMEOUT")).

(** A channel that knows its committers by name and takes committer
    objects as they are. *)
Fixpoint resolve (known : list Committer) (request_targets : list Target)
  : Outcome (list Committer) :=
  match request_targets with
  | [] => Returned []
  | t :: rest =>
      match (match t with
             | ByReference c => Some c
             | ByName n => find (fun c => (committer_name c =? n)%string) known
             end) with
      | None => Thrown (Error "Committer not found")
      | Some c =>
          match resolve known rest with
          | Returned cs => Returned (c :: cs)
          | Thrown e => Thrown e
          end
      end
  end.

Definition channel : Channel :=
  {| channel_name := "mychannel"; getTargetCommitters := resolve [] |}.

Definition unbuilt : Commit.t := Commit.constructor "mycc" channel None.

(** An action that has been built and signed. *)
Definition signed : Commit.t :=
  Commit.set_signature [x51; x52] (Commit.set_payload [x41; x42; x43] unbuilt).

Definition envelope : Envelope.t :=
  {| Envelope.signature := [x51; x52]; Envelope.payload := [x41; x42; x43] |}.

Definition to (committers : list Committer) : CommitSendRequest :=
  {| handler := None;
     targets := Some (map ByReference committers);
     requestTimeout := Some 3000%Z |}.

Definition empty_request : CommitSendRequest :=
  {| handler := None; targets := None; requestTimeout := None |}.

(** A handler that answers for itself, whatever targets come with it. *)
Definition relay : Handler :=
  {| commit := fun _ _ _ => Returned {| status := "SUCCESS"; message := Some "relayed"%string |} |}.

Definition through (h : Handler) (committers : list Committer) : CommitSendRequest :=
  {| handler := Some h;
     targets := Some (map ByReference committers);
     requestTimeout := Some 3000%Z |}.

(** A request that names a committer the channel does not know. *)
Definition to_unknown_name : CommitSendRequest :=
  {| handler := None;
     targets := Some [ByName "orderer9"];
     requestTimeout := None |}.

(** Two responses, statuses 200 and 500, in that order of arrival. *)
Definition entries : list (option protos.ProposalResponse.t) :=
  [Some response200; Some response500].

(** The payload message the specification describes for them, over the
    reference schema, and its bytes. *)
Definition message : common.Payload.t :=
  @Spec.final_payload RefSchema.ChaincodeProposalPayload RefSchema.ChaincodeActionPayload
    RefSchema.Transaction (record (Some entries)) entries response200 original.

Definition buffer : bytes := RefSchema.put_Payload message.

Definition built : Commit.t :=
  Spec.built unbuilt (record (Some entries)) message buffer.

(** Orderers for the broadcast scenarios. *)
Definition orderer1 : Committer := failed "orderer1" "m1".

Definition orderer2 : Committer := failed "orderer2" "m2".

Definition orderer3 : Committer := failed "orderer3" "m3".

Definition orderer4 : Committer := accepting "orderer4".

Definition orderer5 : Committer := unreachable "orderer5".

Definition orderer6 : Committer := undecided "orderer6".

(** Status 500 first, 200 second. *)
Definition entries_failure_first : list (option protos.ProposalResponse.t) :=
  [Some response500; Some response200].

Definition sent (request_targets : list Committer) (attempted : list Committer) : Net :=
  ResolvedTargets channel (map ByReference request_targets)
    :: Spec.broadcasts envelope (Some 3000%Z) attempted.

End Example.

(** * Properties *)

(** ** The monad and the filter loop *)

Lemma fold_collect_endorsements :
  forall entries acc,
    fold_left
      (fun endorsements proposalResponse =>
         match proposalResponse with
         | Some pr =>
             match protos.ProposalResponse.response pr with
             | Some r =>
                 if (protos.Response.status r =? 200)%Z
                 then (endorsements ++ [protos.ProposalResponse.endorsement pr])%list
                 else endorsements
             | None => endorsements
             end
         | None => endorsements
         end)
      entries acc
    = (acc ++ Spec.filtered_endorsements entries)%list.
Proof.
  induction entries as [|entry rest IH]; intros acc.
  - simpl. now rewrite app_nil_r.
  - simpl fold_left. rewrite IH. unfold Spec.filtered_endorsements.
    destruct entry as [pr|]; simpl; [|reflexivity].
    destruct (protos.ProposalResponse.response pr) as [r|]; [|reflexivity].
    destruct (protos.Response.status r =? 200)%Z; [|reflexivity].
    simpl. now rewrite <- app_assoc.
Qed.

Lemma collect_endorsements_filtered :
  forall entries, Commit.collect_endorsements entries = Spec.filtered_endorsements entries.
Proof.
  intros entries. unfold Commit.collect_endorsements.
  now rewrite fold_collect_endorsements.
Qed.

Lemma filtered_endorsements_length :
  forall entries,
    List.length (Spec.filtered_endorsements entries)
    = List.length (Spec.successful_responses entries).
Proof.
  intros entries. unfold Spec.filtered_endorsements. apply length_map.
Qed.

Lemma successful_responses_nil_iff :
  forall entries,
    Spec.successful_responses entries = []
    <-> (forall entry, In entry entries -> Spec.is_success entry = false).
Proof.
  induction entries as [|entry rest IH]; cbn [Spec.successful_responses In].
  - split; [intros _ entry []|reflexivity].
  - destruct entry as [pr|].
    + destruct (Spec.is_success (Some pr)) eqn:Hs.
      * split; [intros H; discriminate H|].
        intros H. specialize (H (Some pr) (or_introl eq_refl)). congruence.
      * rewrite IH. split.
        -- intros H entry [<-|Hin]; [exact Hs|now apply H].
        -- intros H entry Hin. apply H. now right.
    + rewrite IH. split.
      * intros H entry [<-|Hin]; [reflexivity|now apply H].
      * intros H entry Hin. apply H. now right.
Qed.

Lemma has_success_successful :
  forall entries, Spec.has_success entries -> Spec.successful_responses entries <> [].
Proof.
  intros entries (pr & Hin & Hs) Hnil.
  rewrite successful_responses_nil_iff in Hnil.
  specialize (Hnil _ Hin). congruence.
Qed.

(** ** [Commit.build] *)

Section Build.

Context {PM_ChaincodeProposalPayload : ProtoMessage protos.ChaincodeProposalPayload.t}.
Context {PM_ChaincodeActionPayload : ProtoMessage protos.ChaincodeActionPayload.t}.
Context {PM_Transaction : ProtoMessage protos.Transaction.t}.
Context {PM_Payload : ProtoMessage common.Payload.t}.

Lemma build_without_idContext :
  forall request this,
    Commit.build None request this = (Thrown (MissingParameterError "idContext"), this).
Proof. reflexivity. Qed.

Lemma build_unfold :
  forall idContext request this,
    Commit.build (Some idContext) request this = Spec.build_outcome this request.
Proof.
  intros idContext request this.
  unfold Commit.build, Spec.build_outcome, Spec.resolved_endorsement, Spec.remember_endorsement.
  unfold bind at 1. cbn [ret].
  destruct (endorsement request) as [e|] eqn:Hreq.
  - unfold bind, modify, get, ret, throw, lift, checkParameter; cbn.
    destruct (Endorsement._proposalResponses e) as [entries|]; [|reflexivity].
    rewrite collect_endorsements_filtered.
    destruct (Spec.filtered_endorsements entries) as [|en ens] eqn:Hf; [reflexivity|].
    cbn. unfold deref.
    destruct (array_get entries 0) as [first|]; [|reflexivity].
    cbn. unfold Spec.original_payload_bytes.
    destruct (decode _) as [original|err]; [|reflexivity].
    cbn. unfold Spec.final_payload, Spec.transaction, Spec.transaction_action,
      Spec.chaincode_action_payload, Spec.endorsed_action, Spec.trimmed_proposal_payload.
    rewrite Hf. reflexivity.
  - unfold bind, modify, get, ret, throw, lift, checkParameter; cbn.
    destruct (Commit._endorsement this) as [e|] eqn:He; [|reflexivity].
    destruct (Endorsement._proposalResponses e) as [entries|]; [|reflexivity].
    rewrite collect_endorsements_filtered.
    destruct (Spec.filtered_endorsements entries) as [|en ens] eqn:Hf; [reflexivity|].
    cbn. unfold deref.
    destruct (array_get entries 0) as [first|]; [|reflexivity].
    cbn. unfold Spec.original_payload_bytes.
    destruct (decode _) as [original|err]; [|reflexivity].
    cbn. unfold Spec.final_payload, Spec.transaction, Spec.transaction_action,
      Spec.chaincode_action_payload, Spec.endorsed_action, Spec.trimmed_proposal_payload.
    rewrite Hf. unfold Spec.built. destruct this; cbn in *. now rewrite He.
Qed.

Lemma build_returned_inv :
  forall idContext request this buffer this',
    Commit.build idContext request this = (Returned buffer, this') ->
    exists e entries first original,
      Spec.resolved_endorsement this request = Some e
      /\ Endorsement._proposalResponses e = Some entries
      /\ array_get entries 0 = Some first
      /\ decode (Spec.original_payload_bytes e) = Returned original
      /\ buffer = toBuffer (Spec.final_payload e entries first original)
      /\ this' = Spec.built this e (Spec.final_payload e entries first original) buffer.
Proof.
  intros [idContext|] request this buffer this' Hrun.
  - rewrite build_unfold in Hrun. unfold Spec.build_outcome in Hrun.
    destruct (Spec.resolved_endorsement this request) as [e|] eqn:Hres; [|discriminate].
    destruct (Endorsement._proposalResponses e) as [entries|] eqn:Hrs; [|discriminate].
    destruct (Spec.filtered_endorsements entries); [discriminate|].
    destruct (array_get entries 0) as [first|] eqn:Hfirst; [|discriminate].
    destruct (decode (Spec.original_payload_bytes e)) as [original|err] eqn:Hdec;
      [|discriminate].
    cbn zeta in Hrun. injection Hrun as <- <-.
    exists e, entries, first, original. repeat split; assumption || reflexivity.
  - rewrite build_without_idContext in Hrun. discriminate.
Qed.

Lemma no_success_filtered_nil :
  forall entries,
    (forall entry, In entry entries -> Spec.is_success entry = false) ->
    Spec.filtered_endorsements entries = [].
Proof.
  intros entries Hall. unfold Spec.filtered_endorsements.
  apply successful_responses_nil_iff in Hall. now rewrite Hall.
Qed.

(** The successful responses are the entries that pass the status test,
    in their order. *)
Lemma successful_responses_filter :
  forall entries,
    map Some (Spec.successful_responses entries) = filter Spec.is_success entries.
Proof.
  induction entries as [|[pr|] rest IH]; cbn [Spec.successful_responses filter].
  - reflexivity.
  - destruct (Spec.is_success (Some pr)); cbn [map]; now rewrite IH.
  - cbn [Spec.is_success]. exact IH.
Qed.

(** What [build] does on records outside the specification's data model:
    a [null] at index 0 cannot be read, and an original proposal payload
    that is not a message makes [decode] throw; both after the reset. *)
Lemma build_null_first_entry :
  forall idContext request this e entries,
    Spec.resolved_endorsement this request = Some e ->
    Endorsement._proposalResponses e = Some entries ->
    Spec.has_success entries ->
    nth_error entries 0 = Some None ->
    Commit.build (Some idContext) request this
    = (Thrown (TypeError "Cannot read property 'payload' of undefined"),
       Commit._reset (Spec.remember_endorsement this request)).
Proof.
  intros idContext request this e entries Hres Hrs Hok Hfirst.
  rewrite build_unfold. unfold Spec.build_outcome. rewrite Hres, Hrs.
  pose proof (has_success_successful Hok) as Hne.
  destruct (Spec.filtered_endorsements entries) as [|en ens] eqn:Hf.
  - exfalso. apply Hne. apply length_zero_iff_nil.
    rewrite <- filtered_endorsements_length, Hf. reflexivity.
  - unfold array_get. now rewrite Hfirst.
Qed.

Lemma build_undecodable_proposal :
  forall idContext request this e entries first err,
    Spec.resolved_endorsement this request = Some e ->
    Endorsement._proposalResponses e = Some entries ->
    Spec.has_success entries ->
    nth_error entries 0 = Some (Some first) ->
    @decode protos.ChaincodeProposalPayload.t _ (Spec.original_payload_bytes e)
    = Thrown err ->
    Commit.build (Some idContext) request this
    = (Thrown err, Commit._reset (Spec.remember_endorsement this request)).
Proof.
  intros idContext request this e entries first err Hres Hrs Hok Hfirst Hdec.
  rewrite build_unfold. unfold Spec.build_outcome. rewrite Hres, Hrs.
  pose proof (has_success_successful Hok) as Hne.
  destruct (Spec.filtered_endorsements entries) as [|en ens] eqn:Hf.
  - exfalso. apply Hne. apply length_zero_iff_nil.
    rewrite <- filtered_endorsements_length, Hf. reflexivity.
  - unfold array_get. now rewrite Hfirst, Hdec.
Qed.

(** C1 (amended).  When the record's collected-responses sequence is absent
    (never set), [build] fails with NotEndorsedError and the action is left
    as it was; when the sequence is present but empty, [build] fails with
    NoValidEndorsementsError, after the reset.  The two errors differ. *)
Theorem build_absent_responses_not_endorsed :
  forall idContext request this e,
    Spec.resolved_endorsement this request = Some e ->
    (Endorsement._proposalResponses e = None ->
     Commit.build (Some idContext) request this
     = (Thrown NotEndorsedError, Spec.remember_endorsement this request))
    /\ (Endorsement._proposalResponses e = Some [] ->
        Commit.build (Some idContext) request this
        = (Thrown NoValidEndorsementsError,
           Commit._reset (Spec.remember_endorsement this request)))
    /\ NotEndorsedError <> NoValidEndorsementsError.
Proof.
  intros idContext request this e Hres.
  rewrite build_unfold. unfold Spec.build_outcome. rewrite Hres.
  split; [|split].
  - intros ->. reflexivity.
  - intros ->. reflexivity.
  - discriminate.
Qed.

(** C7.  A record with at least one response, none of which has status
    200, makes [build] fail with NoValidEndorsementsError. *)
Theorem build_only_failures_no_valid_endorsements :
  forall idContext request this e entries,
    Spec.resolved_endorsement this request = Some e ->
    Endorsement._proposalResponses e = Some entries ->
    entries <> [] ->
    (forall entry, In entry entries -> Spec.is_success entry = false) ->
    fst (Commit.build (Some idContext) request this) = Thrown NoValidEndorsementsError.
Proof.
  intros idContext request this e entries Hres Hrs _ Hall.
  rewrite build_unfold. unfold Spec.build_outcome. rewrite Hres, Hrs.
  now rewrite (no_success_filtered_nil _ Hall).
Qed.

(** C5.  With at least one response of status 200, [build] takes the entry
    at index 0 of the collected responses as the source of the
    proposal-response-payload, takes the header from the record's action
    metadata, and returns the serialized final payload assembled as
    endorsed-action, chaincode-action-payload, transaction-action with the
    signature header, one-element transaction, payload with the original
    header; the object keeps that message and its bytes. *)
Theorem build_assembles_from_first_response :
  forall idContext request this e entries first original,
    Spec.resolved_endorsement this request = Some e ->
    Endorsement._proposalResponses e = Some entries ->
    Spec.has_success entries ->
    nth_error entries 0 = Some (Some first) ->
    decode (Spec.original_payload_bytes e) = Returned original ->
    let msg := Spec.final_payload e entries first original in
    Commit.build (Some idContext) request this
    = (Returned (toBuffer msg), Spec.built this e msg (toBuffer msg)).
Proof.
  intros idContext request this e entries first original Hres Hrs Hok Hfirst Hdec msg.
  rewrite build_unfold. unfold Spec.build_outcome. rewrite Hres, Hrs.
  pose proof (has_success_successful Hok) as Hne.
  destruct (Spec.filtered_endorsements entries) as [|en ens] eqn:Hf.
  - exfalso. apply Hne. apply length_zero_iff_nil.
    rewrite <- filtered_endorsements_length, Hf. reflexivity.
  - unfold array_get. rewrite Hfirst, Hdec. reflexivity.
Qed.

(** C10.  [build] resets the action before it filters: when it fails
    because no response has status 200, the earlier message, payload bytes
    and signature are gone, and the action is unbuilt (no signed envelope
    can be had from it). *)
Theorem build_failure_after_reset :
  forall idContext request this e entries,
    Spec.resolved_endorsement this request = Some e ->
    Endorsement._proposalResponses e = Some entries ->
    (forall entry, In entry entries -> Spec.is_success entry = false) ->
    exists this',
      Commit.build (Some idContext) request this = (Thrown NoValidEndorsementsError, this')
      /\ this' = Commit._reset (Spec.remember_endorsement this request)
      /\ Commit.unbuilt this'
      /\ Commit.getSignedEnvelope this' = Thrown Commit.PreconditionError.
Proof.
  intros idContext request this e entries Hres Hrs Hall.
  exists (Commit._reset (Spec.remember_endorsement this request)).
  split; [|split; [reflexivity|split]].
  - rewrite build_unfold. unfold Spec.build_outcome. rewrite Hres, Hrs.
    now rewrite (no_success_filtered_nil _ Hall).
  - unfold Commit.unbuilt. cbn. auto.
  - reflexivity.
Qed.

Section Lawful_schema.

Hypothesis lawful_ChaincodeProposalPayload : Lawful protos.ChaincodeProposalPayload.t.
Hypothesis lawful_ChaincodeActionPayload : Lawful protos.ChaincodeActionPayload.t.
Hypothesis lawful_Transaction : Lawful protos.Transaction.t.
Hypothesis lawful_Payload : Lawful common.Payload.t.

(** Reading a built payload back, down to the chaincode action payload. *)
Lemma decode_final_payload :
  forall e entries first original,
    let msg := Spec.final_payload e entries first original in
    decode (toBuffer msg) = Returned msg
    /\ decode (common.Payload.data msg) = Returned (Spec.transaction e entries first original)
    /\ decode (protos.TransactionAction.payload (Spec.transaction_action e entries first original))
       = Returned (Spec.chaincode_action_payload entries first original).
Proof.
  intros e entries first original msg. split; [|split].
  - apply lawful_Payload.
  - apply lawful_Transaction.
  - apply lawful_ChaincodeActionPayload.
Qed.


(** On a record of the specification's data model with a response of
    status 200, [build] returns, and the payload it returns reads back to an
    endorsed action that holds the list the loop collected. *)
Lemma build_places_endorsements :
  forall idContext request this e entries first
         (original : protos.ChaincodeProposalPayload.t),
    Spec.resolved_endorsement this request = Some e ->
    Endorsement._proposalResponses e = Some entries ->
    Spec.has_success entries ->
    nth_error entries 0 = Some (Some first) ->
    decode (Spec.original_payload_bytes e) = Returned original ->
    exists buffer this' msg tx ta cap endorsed,
      Commit.build (Some idContext) request this = (Returned buffer, this')
      /\ decode buffer = Returned msg
      /\ decode (common.Payload.data msg) = Returned tx
      /\ protos.Transaction.actions tx = [ta]
      /\ decode (protos.TransactionAction.payload ta) = Returned cap
      /\ protos.ChaincodeActionPayload.action cap = Some endorsed
      /\ protos.ChaincodeEndorsedAction.endorsements endorsed
         = Commit.collect_endorsements entries.
Proof.
  intros idContext request this e entries first original Hres Hrs Hok Hfirst Hdec.
  destruct (decode_final_payload e entries first original) as (Hp & Ht & Hc).
  exists (toBuffer (Spec.final_payload e entries first original)),
    (Spec.built this e (Spec.final_payload e entries first original)
       (toBuffer (Spec.final_payload e entries first original))),
    (Spec.final_payload e entries first original),
    (Spec.transaction e entries first original),
    (Spec.transaction_action e entries first original),
    (Spec.chaincode_action_payload entries first original),
    (Spec.endorsed_action entries first).
  split.
  { rewrite build_unfold. unfold Spec.build_outcome. rewrite Hres, Hrs.
    pose proof (has_success_successful Hok) as Hne.
    destruct (Spec.filtered_endorsements entries) as [|en ens] eqn:Hf.
    - exfalso. apply Hne. apply length_zero_iff_nil.
      rewrite <- filtered_endorsements_length, Hf. reflexivity.
    - unfold array_get. now rewrite Hfirst, Hdec. }
  repeat split; try assumption.
  symmetry. apply collect_endorsements_filtered.
Qed.

(** C8.  The loop of [build] collects exactly the endorsements of the
    responses whose status is 200, in arrival order (the entries that pass
    the status test, filtered in place).  [build] places that list in the
    envelope: on a record with a response of status 200 it returns a
    payload, and the endorsed action inside every payload it returns holds
    exactly that list.  For two responses of statuses 200 and 500 the list
    has length 1, is the endorsement of the 200 response, and is what the
    payload [build] returns for them holds. *)
Theorem build_endorsement_list :
  forall entries,
    Commit.collect_endorsements entries
    = map protos.ProposalResponse.endorsement (Spec.successful_responses entries)
    /\ map Some (Spec.successful_responses entries) = filter Spec.is_success entries
    /\ (forall idContext request this e buffer this',
          Spec.resolved_endorsement this request = Some e ->
          Endorsement._proposalResponses e = Some entries ->
          Commit.build idContext request this = (Returned buffer, this') ->
          exists msg tx ta cap endorsed,
            decode buffer = Returned msg
            /\ decode (common.Payload.data msg) = Returned tx
            /\ protos.Transaction.actions tx = [ta]
            /\ decode (protos.TransactionAction.payload ta) = Returned cap
            /\ protos.ChaincodeActionPayload.action cap = Some endorsed
            /\ protos.ChaincodeEndorsedAction.endorsements endorsed
               = Commit.collect_endorsements entries)
    /\ (forall idContext request this e first
               (original : protos.ChaincodeProposalPayload.t),
          Spec.resolved_endorsement this request = Some e ->
          Endorsement._proposalResponses e = Some entries ->
          Spec.has_success entries ->
          nth_error entries 0 = Some (Some first) ->
          decode (Spec.original_payload_bytes e) = Returned original ->
          exists buffer this' msg tx ta cap endorsed,
            Commit.build (Some idContext) request this = (Returned buffer, this')
            /\ decode buffer = Returned msg
            /\ decode (common.Payload.data msg) = Returned tx
            /\ protos.Transaction.actions tx = [ta]
            /\ decode (protos.TransactionAction.payload ta) = Returned cap
            /\ protos.ChaincodeActionPayload.action cap = Some endorsed
            /\ protos.ChaincodeEndorsedAction.endorsements endorsed
               = map protos.ProposalResponse.endorsement
                   (Spec.successful_responses entries))
    /\ (forall ok ko,
          Spec.is_success (Some ok) = true ->
          Spec.is_success (Some ko) = false ->
          entries = [Some ok; Some ko] ->
          Commit.collect_endorsements entries = [protos.ProposalResponse.endorsement ok]
          /\ List.length (Commit.collect_endorsements entries) = 1
          /\ forall idContext request this e
                    (original : protos.ChaincodeProposalPayload.t),
               Spec.resolved_endorsement this request = Some e ->
               Endorsement._proposalResponses e = Some entries ->
               decode (Spec.original_payload_bytes e) = Returned original ->
               exists buffer this' msg tx ta cap endorsed,
                 Commit.build (Some idContext) request this = (Returned buffer, this')
                 /\ decode buffer = Returned msg
                 /\ decode (common.Payload.data msg) = Returned tx
                 /\ protos.Transaction.actions tx = [ta]
                 /\ decode (protos.TransactionAction.payload ta) = Returned cap
                 /\ protos.ChaincodeActionPayload.action cap = Some endorsed
                 /\ protos.ChaincodeEndorsedAction.endorsements endorsed
                    = [protos.ProposalResponse.endorsement ok]).
Proof.
  intros entries. split; [|split; [|split; [|split]]].
  - apply collect_endorsements_filtered.
  - apply successful_responses_filter.
  - intros idContext request this e buffer this' Hres Hrs Hrun.
    destruct (build_returned_inv _ _ _ Hrun)
      as (e' & entries' & first & original & Hres' & Hrs' & _ & _ & -> & _).
    rewrite Hres in Hres'. injection Hres' as <-.
    rewrite Hrs in Hrs'. injection Hrs' as <-.
    destruct (decode_final_payload e entries first original) as (Hp & Ht & Hc).
    exists (Spec.final_payload e entries first original),
      (Spec.transaction e entries first original),
      (Spec.transaction_action e entries first original),
      (Spec.chaincode_action_payload entries first original),
      (Spec.endorsed_action entries first).
    repeat split; try assumption.
    symmetry. apply collect_endorsements_filtered.
  - intros idContext request this e first original Hres Hrs Hok Hfirst Hdec.
    destruct (build_places_endorsements idContext _ _ Hres Hrs Hok Hfirst Hdec)
      as (buffer & this' & msg & tx & ta & cap & endorsed & Hrun & Hm & Ht & Ha & Hc
          & He & Hlist).
    exists buffer, this', msg, tx, ta, cap, endorsed.
    repeat split; try assumption.
    rewrite Hlist. apply collect_endorsements_filtered.
  - intros ok ko Hok Hko ->.
    assert (Hlist : Commit.collect_endorsements [Some ok; Some ko]
                    = [protos.ProposalResponse.endorsement ok]).
    { rewrite collect_endorsements_filtered. unfold Spec.filtered_endorsements.
      cbn [Spec.successful_responses]. now rewrite Hok, Hko. }
    split; [exact Hlist|]. split; [now rewrite Hlist|].
    intros idContext request this e original Hres Hrs Hdec.
    assert (Hsome : Spec.has_success [Some ok; Some ko]).
    { exists ok. split; [now left|exact Hok]. }
    destruct (build_places_endorsements idContext _ _ Hres Hrs Hsome
                (first := ok) eq_refl Hdec)
      as (buffer & this' & msg & tx & ta & cap & endorsed & Hrun & Hm & Ht & Ha & Hc
          & He & Hplaced).
    exists buffer, this', msg, tx, ta, cap, endorsed.
    repeat split; try assumption.
    now rewrite Hplaced.
Qed.

End Lawful_schema.

End Build.

(** ** The broadcast loop *)

Section Loop.

Variable envelope : Envelope.t.
Variable timeout : option Z.

Let outcome (committer : Committer) : Outcome BroadcastResult :=
  sendBroadcast committer envelope timeout.

Lemma broadcasts_app :
  forall l1 l2,
    Spec.broadcasts envelope timeout (l1 ++ l2)
    = (Spec.broadcasts envelope timeout l1 ++ Spec.broadcasts envelope timeout l2)%list.
Proof. intros l1 l2. apply map_app. Qed.

Lemma broadcast_loop_step_failure :
  forall committer rest bad r net,
    outcome committer = Returned r ->
    status r <> "SUCCESS"%string ->
    Commit.broadcast_loop envelope timeout (committer :: rest) bad net
    = Commit.broadcast_loop envelope timeout rest r
        (net ++ [Broadcast committer envelope timeout]).
Proof.
  intros committer rest bad r net Hr Hs. cbn [Commit.broadcast_loop].
  unfold bind, call. fold (outcome committer). rewrite Hr.
  apply String.eqb_neq in Hs. now rewrite Hs.
Qed.

Lemma broadcast_loop_step_stop :
  forall committer rest bad net,
    Spec.stops (outcome committer) ->
    Commit.broadcast_loop envelope timeout (committer :: rest) bad net
    = (outcome committer, net ++ [Broadcast committer envelope timeout]).
Proof.
  intros committer rest bad net Hstop. cbn [Commit.broadcast_loop].
  unfold bind, call. fold (outcome committer).
  destruct (outcome committer) as [r|err]; [|reflexivity].
  cbn in Hstop. apply String.eqb_eq in Hstop. now rewrite Hstop.
Qed.

(** Every target failing: all are attempted, the last outcome is kept. *)
Lemma broadcast_loop_all_fail :
  forall committers bad net,
    Forall (Spec.returns_failure envelope timeout) committers ->
    exists r,
      Commit.broadcast_loop envelope timeout committers bad net
      = (Returned r, net ++ Spec.broadcasts envelope timeout committers)
      /\ (committers = [] -> r = bad)
      /\ (forall d, committers <> [] -> outcome (last committers d) = Returned r).
Proof.
  induction committers as [|c rest IH]; intros bad net Hall.
  - exists bad. cbn. rewrite app_nil_r. repeat split; congruence.
  - inversion Hall as [|c' rest' (r & Hr & Hs) Hrest]; subst.
    destruct (IH r (net ++ [Broadcast c envelope timeout]) Hrest)
      as (r' & Hrun & Hnil & Hlast).
    exists r'. split; [|split].
    + rewrite broadcast_loop_step_failure with (r := r) by assumption.
      rewrite Hrun. now rewrite <- app_assoc.
    + discriminate.
    + intros d _. destruct rest as [|c2 rest2].
      * rewrite (Hnil eq_refl). exact Hr.
      * change (last (c :: c2 :: rest2) d) with (last (c2 :: rest2) d).
        apply Hlast. discriminate.
Qed.

(** Failures up to a target that stops the loop: that target's outcome is
    the loop's, and nothing after it is attempted. *)
Lemma broadcast_loop_stops_at :
  forall pre t post bad net,
    Forall (Spec.returns_failure envelope timeout) pre ->
    Spec.stops (outcome t) ->
    Commit.broadcast_loop envelope timeout (pre ++ t :: post) bad net
    = (outcome t, net ++ Spec.broadcasts envelope timeout (pre ++ [t])).
Proof.
  induction pre as [|c rest IH]; intros t post bad net Hall Hstop.
  - cbn [app]. now apply broadcast_loop_step_stop.
  - inversion Hall as [|c' rest' (r & Hr & Hs) Hrest]; subst.
    cbn [app]. rewrite broadcast_loop_step_failure with (r := r) by assumption.
    rewrite IH by assumption. cbn [Spec.broadcasts map app].
    now rewrite <- app_assoc.
Qed.

(** Every target list is of one of the two shapes. *)
Lemma committers_shape :
  forall committers,
    Forall (Spec.returns_failure envelope timeout) committers
    \/ exists pre t post,
        committers = (pre ++ t :: post)%list
        /\ Forall (Spec.returns_failure envelope timeout) pre
        /\ Spec.stops (outcome t).
Proof.
  induction committers as [|c rest IH].
  - left. constructor.
  - destruct (outcome c) as [r|err] eqn:Hc.
    + destruct (String.eqb_spec (status r) "SUCCESS") as [Hs|Hs].
      * right. exists [], c, rest. repeat split; [constructor|].
        rewrite Hc. exact Hs.
      * assert (Hfail : Spec.returns_failure envelope timeout c)
          by (exists r; split; assumption).
        destruct IH as [Hall|(pre & t & post & -> & Hpre & Hstop)].
        -- left. now constructor.
        -- right. exists (c :: pre), t, post. repeat split; [now constructor|exact Hstop].
    + right. exists [], c, rest. repeat split; [constructor|].
      rewrite Hc. exact I.
Qed.

End Loop.

(** ** [Commit.send] *)

Lemma send_without_envelope :
  forall this request net,
    Commit.getSignedEnvelope this = Thrown Commit.PreconditionError ->
    Commit.send this request net = (Thrown Commit.PreconditionError, net).
Proof.
  intros this request net Hunsigned. unfold Commit.send, bind, lift.
  now rewrite Hunsigned.
Qed.

Lemma getSignedEnvelope_cases :
  forall this,
    (exists envelope, Commit.getSignedEnvelope this = Returned envelope)
    \/ Commit.getSignedEnvelope this = Thrown Commit.PreconditionError.
Proof.
  intros this. unfold Commit.getSignedEnvelope.
  destruct (Commit._payload this), (Commit._signature this); eauto.
Qed.

(** C9.  A request with neither a handler nor targets: [send] leaves the
    trace of calls as it was (nothing is resolved, nothing is sent), and on
    an action that has its signed envelope it fails with
    MissingParameterError for [targets]. *)
Theorem send_without_handler_or_targets :
  forall this request net,
    handler request = None ->
    targets request = None ->
    snd (Commit.send this request net) = net
    /\ (forall envelope,
          Commit.getSignedEnvelope this = Returned envelope ->
          Commit.send this request net = (Thrown (MissingParameterError "targets"), net)).
Proof.
  intros this request net Hh Ht. split.
  - destruct (getSignedEnvelope_cases this) as [(envelope & Hsigned)|Hunsigned].
    + unfold Commit.send, bind, lift. rewrite Hsigned, Hh, Ht. reflexivity.
    + now rewrite send_without_envelope.
  - intros envelope Hsigned.
    unfold Commit.send, bind, lift. rewrite Hsigned, Hh, Ht. reflexivity.
Qed.

Section Targets.

Variable this : Commit.t.
Variable request : CommitSendRequest.
Variable envelope : Envelope.t.
Variable request_targets : list Target.
Variable committers : list Committer.
Variable net : Net.

Hypothesis signed : Commit.getSignedEnvelope this = Returned envelope.
Hypothesis no_handler : handler request = None.
Hypothesis with_targets : targets request = Some request_targets.
Hypothesis resolution :
  getTargetCommitters (Commit.channel this) request_targets = Returned committers.

Let timeout : option Z := requestTimeout request.

Let started : Net := (net ++ [ResolvedTargets (Commit.channel this) request_targets])%list.

Lemma send_targets_unfold :
  Commit.send this request net
  = Commit.broadcast_loop envelope timeout committers Spec.unknown_result started.
Proof.
  unfold Commit.send, bind, lift, call.
  rewrite signed, no_handler, with_targets, resolution. reflexivity.
Qed.

(** C4 (amended).  When [tk] is the first target whose outcome has status
    SUCCESS and every target before it returns an outcome (of another
    status; none raises), [send] returns [tk]'s outcome; the calls made are
    the resolution of the targets and then one broadcast to each of
    [t1 .. tk], in the order given, and none to the targets after [tk]. *)
Theorem send_returns_first_success :
  forall pre tk post rk,
    committers = (pre ++ tk :: post)%list ->
    Forall (Spec.returns_failure envelope timeout) pre ->
    sendBroadcast tk envelope timeout = Returned rk ->
    status rk = "SUCCESS"%string ->
    Commit.send this request net
    = (Returned rk,
       (net ++ ResolvedTargets (Commit.channel this) request_targets
            :: Spec.broadcasts envelope timeout (pre ++ [tk]))%list).
Proof.
  intros pre tk post rk Hsplit Hpre Hk Hs.
  rewrite send_targets_unfold, Hsplit.
  rewrite broadcast_loop_stops_at by (try assumption; rewrite Hk; exact Hs).
  rewrite Hk. unfold started. now rewrite <- app_assoc.
Qed.

(** C2 (amended).  On a non-empty resolved target list on which no target
    returns status SUCCESS, [send] ends with the outcome of the last target
    attempted; when every target returns an outcome, that is the outcome of
    the last target of the list and every target was attempted.  An outcome
    returned with status UNKNOWN comes from an empty list or is the last
    target's own outcome; the empty list gives the UNKNOWN placeholder. *)
Theorem send_last_failure_wins :
  (committers <> [] ->
   (forall t r, In t committers ->
                sendBroadcast t envelope timeout = Returned r ->
                status r <> "SUCCESS"%string) ->
   exists attempted tl post,
     committers = ((attempted ++ [tl]) ++ post)%list
     /\ Commit.send this request net
        = (sendBroadcast tl envelope timeout,
           (started ++ Spec.broadcasts envelope timeout (attempted ++ [tl]))%list)
     /\ (post = [] \/ exists err, sendBroadcast tl envelope timeout = Thrown err))
  /\ (committers <> [] ->
      Forall (Spec.returns_failure envelope timeout) committers ->
      forall d,
      exists rn,
        sendBroadcast (last committers d) envelope timeout = Returned rn
        /\ Commit.send this request net
           = (Returned rn, (started ++ Spec.broadcasts envelope timeout committers)%list))
  /\ (forall r net',
        Commit.send this request net = (Returned r, net') ->
        status r = "UNKNOWN"%string ->
        committers = []
        \/ forall d, sendBroadcast (last committers d) envelope timeout = Returned r)
  /\ (committers = [] ->
      Commit.send this request net = (Returned Spec.unknown_result, started)).
Proof.
  split; [|split; [|split]].
  - intros Hne Hnone.
    destruct (committers_shape envelope timeout committers)
      as [Hall|(pre & t & post & Hsplit & Hpre & Hstop)].
    + destruct (exists_last Hne) as (pre & tl & Hsplit).
      destruct (broadcast_loop_all_fail Spec.unknown_result started Hall)
        as (r & Hrun & _ & Hlast).
      specialize (Hlast tl Hne). rewrite Hsplit, last_last in Hlast.
      exists pre, tl, []. split; [|split].
      * now rewrite app_nil_r.
      * rewrite send_targets_unfold, Hrun, Hlast. now rewrite Hsplit.
      * now left.
    + exists pre, t, post. split; [|split].
      * now rewrite <- app_assoc.
      * rewrite send_targets_unfold, Hsplit.
        now rewrite broadcast_loop_stops_at by assumption.
      * right. destruct (sendBroadcast t envelope timeout) as [r|err] eqn:Ht.
        -- exfalso. apply (Hnone t r); [|exact Ht|exact Hstop].
           rewrite Hsplit. apply in_or_app. right. now left.
        -- now exists err.
  - intros Hne Hall d.
    destruct (broadcast_loop_all_fail Spec.unknown_result started Hall)
      as (r & Hrun & _ & Hlast).
    exists r. split; [now apply Hlast|].
    now rewrite send_targets_unfold.
  - intros r net' Hrun Hunknown.
    rewrite send_targets_unfold in Hrun.
    destruct (committers_shape envelope timeout committers)
      as [Hall|(pre & t & post & Hsplit & Hpre & Hstop)].
    + destruct (broadcast_loop_all_fail Spec.unknown_result started Hall)
        as (r' & Hrun' & _ & Hlast).
      rewrite Hrun' in Hrun. injection Hrun as -> _.
      destruct committers as [|c rest]; [now left|right].
      intros d. apply Hlast. discriminate.
    + exfalso. rewrite Hsplit in Hrun.
      rewrite broadcast_loop_stops_at in Hrun by assumption.
      injection Hrun as Hout _. rewrite Hout in Hstop. cbn in Hstop.
      rewrite Hunknown in Hstop. discriminate.
  - intros Hnil. rewrite send_targets_unfold, Hnil. reflexivity.
Qed.

(** C3 (amended).  A transport error raised by a target's [sendBroadcast]
    is not caught: it leaves [send] as a raised error and no later target
    is attempted; the outcomes that targets return are what the fallback
    folds.  With the envelope signed and the targets resolved, [send]
    raises only the error that an attempted target raised. *)
Theorem send_propagates_transport_error :
  (forall pre t post err,
      committers = (pre ++ t :: post)%list ->
      Forall (Spec.returns_failure envelope timeout) pre ->
      sendBroadcast t envelope timeout = Thrown err ->
      Commit.send this request net
      = (Thrown err, (started ++ Spec.broadcasts envelope timeout (pre ++ [t]))%list))
  /\ (forall err net',
        Commit.send this request net = (Thrown err, net') ->
        exists pre t post,
          committers = (pre ++ t :: post)%list
          /\ Forall (Spec.returns_failure envelope timeout) pre
          /\ sendBroadcast t envelope timeout = Thrown err
          /\ net' = (started ++ Spec.broadcasts envelope timeout (pre ++ [t]))%list).
Proof.
  split.
  - intros pre t post err Hsplit Hpre Hthrown.
    rewrite send_targets_unfold, Hsplit.
    rewrite broadcast_loop_stops_at by (try assumption; rewrite Hthrown; exact I).
    now rewrite Hthrown.
  - intros err net' Hrun. rewrite send_targets_unfold in Hrun.
    destruct (committers_shape envelope timeout committers)
      as [Hall|(pre & t & post & Hsplit & Hpre & Hstop)].
    + destruct (broadcast_loop_all_fail Spec.unknown_result started Hall)
        as (r & Hrun' & _). rewrite Hrun' in Hrun. discriminate.
    + rewrite Hsplit in Hrun.
      rewrite broadcast_loop_stops_at in Hrun by assumption.
      injection Hrun as Hout <-.
      exists pre, t, post. repeat split; assumption.
Qed.

End Targets.

(** ** The reference schema is lawful *)

Lemma get_put_nat : RefSchema.round_trips RefSchema.put_nat RefSchema.get_nat.
Proof.
  intros n rest. unfold RefSchema.put_nat.
  induction n as [|n IH]; cbn.
  - reflexivity.
  - cbn in IH. now rewrite IH.
Qed.

Lemma get_put_bytes : RefSchema.round_trips RefSchema.put_bytes RefSchema.get_bytes.
Proof.
  intros b rest. unfold RefSchema.put_bytes, RefSchema.get_bytes, RefSchema.pbind.
  rewrite <- app_assoc, get_put_nat.
  assert (Hlen : (List.length (b ++ rest) <? List.length b)%nat = false).
  { apply Nat.ltb_ge. rewrite length_app. lia. }
  rewrite Hlen, firstn_app, skipn_app, firstn_all, skipn_all, Nat.sub_diag.
  cbn. now rewrite app_nil_r.
Qed.

Lemma get_put_string : RefSchema.round_trips RefSchema.put_string RefSchema.get_string.
Proof.
  intros s rest. unfold RefSchema.put_string, RefSchema.get_string, RefSchema.pbind.
  rewrite get_put_bytes. unfold RefSchema.pret.
  now rewrite string_of_list_byte_of_string.
Qed.

Lemma pbind_round_trip :
  forall (A B : Type) (put_item : A -> bytes) (get_item : RefSchema.Parser A)
         (k : A -> RefSchema.Parser B) a rest,
    RefSchema.round_trips put_item get_item ->
    RefSchema.pbind get_item k (put_item a ++ rest)%list = k a rest.
Proof.
  intros A B put_item get_item k a rest Hrt. unfold RefSchema.pbind.
  now rewrite Hrt.
Qed.

Lemma get_many_put :
  forall (A : Type) (put_item : A -> bytes) (get_item : RefSchema.Parser A),
    RefSchema.round_trips put_item get_item ->
    forall l rest,
      RefSchema.get_many get_item (List.length l)
        (List.concat (map put_item l) ++ rest)%list
      = Some (l, rest).
Proof.
  intros A put_item get_item Hrt. induction l as [|a l IH]; intros rest.
  - reflexivity.
  - cbn [List.length map List.concat RefSchema.get_many].
    rewrite <- app_assoc, (pbind_round_trip _ _ _ Hrt).
    unfold RefSchema.pbind. now rewrite IH.
Qed.

Lemma get_put_list :
  forall (A : Type) (put_item : A -> bytes) (get_item : RefSchema.Parser A),
    RefSchema.round_trips put_item get_item ->
    RefSchema.round_trips (RefSchema.put_list put_item) (RefSchema.get_list get_item).
Proof.
  intros A put_item get_item Hrt l rest.
  unfold RefSchema.put_list, RefSchema.get_list.
  rewrite <- app_assoc, (pbind_round_trip _ _ _ get_put_nat).
  now apply get_many_put.
Qed.

Lemma get_put_option :
  forall (A : Type) (put_item : A -> bytes) (get_item : RefSchema.Parser A),
    RefSchema.round_trips put_item get_item ->
    RefSchema.round_trips (RefSchema.put_option put_item) (RefSchema.get_option get_item).
Proof.
  intros A put_item get_item Hrt [a|] rest; cbn.
  - now rewrite (pbind_round_trip _ _ _ Hrt).
  - reflexivity.
Qed.


Create HintDb schema.

#[local] Hint Resolve get_put_nat get_put_bytes get_put_string get_put_list get_put_option
  : schema.

(** A message printed field after field is read back field after field. *)
Ltac read_back :=
  intros [] rest; cbv delta [RefSchema.put_entry RefSchema.get_entry
    RefSchema.put_Endorsement RefSchema.get_Endorsement
    RefSchema.put_Header RefSchema.get_Header
    RefSchema.put_TransactionAction RefSchema.get_TransactionAction
    RefSchema.put_ChaincodeEndorsedAction RefSchema.get_ChaincodeEndorsedAction
    RefSchema.put_ChaincodeProposalPayload RefSchema.get_ChaincodeProposalPayload
    RefSchema.put_ChaincodeActionPayload RefSchema.get_ChaincodeActionPayload
    RefSchema.put_Transaction RefSchema.get_Transaction
    RefSchema.put_Payload RefSchema.get_Payload] beta;
  cbn [fst snd protos.Endorsement.endorser protos.Endorsement.signature
         common.Header.channel_header common.Header.signature_header
         protos.TransactionAction.header protos.TransactionAction.payload
         protos.ChaincodeEndorsedAction.proposal_response_payload
         protos.ChaincodeEndorsedAction.endorsements
         protos.ChaincodeProposalPayload.input
         protos.ChaincodeProposalPayload.TransientMap
         protos.ChaincodeActionPayload.chaincode_proposal_payload
         protos.ChaincodeActionPayload.action
         protos.Transaction.actions
         common.Payload.header common.Payload.data];
  repeat rewrite <- app_assoc;
  repeat (erewrite pbind_round_trip; [|solve [eauto with schema]]);
  reflexivity.

Lemma get_put_entry : RefSchema.round_trips RefSchema.put_entry RefSchema.get_entry.
Proof. read_back. Qed.

Lemma get_put_Endorsement :
  RefSchema.round_trips RefSchema.put_Endorsement RefSchema.get_Endorsement.
Proof. read_back. Qed.

Lemma get_put_Header : RefSchema.round_trips RefSchema.put_Header RefSchema.get_Header.
Proof. read_back. Qed.

Lemma get_put_TransactionAction :
  RefSchema.round_trips RefSchema.put_TransactionAction RefSchema.get_TransactionAction.
Proof. read_back. Qed.

#[local] Hint Resolve get_put_entry get_put_Endorsement get_put_Header
  get_put_TransactionAction : schema.

Lemma get_put_ChaincodeEndorsedAction :
  RefSchema.round_trips RefSchema.put_ChaincodeEndorsedAction
    RefSchema.get_ChaincodeEndorsedAction.
Proof. read_back. Qed.

#[local] Hint Resolve get_put_ChaincodeEndorsedAction : schema.

Lemma get_put_ChaincodeProposalPayload :
  RefSchema.round_trips RefSchema.put_ChaincodeProposalPayload
    RefSchema.get_ChaincodeProposalPayload.
Proof. read_back. Qed.

Lemma get_put_ChaincodeActionPayload :
  RefSchema.round_trips RefSchema.put_ChaincodeActionPayload
    RefSchema.get_ChaincodeActionPayload.
Proof. read_back. Qed.

Lemma get_put_Transaction :
  RefSchema.round_trips RefSchema.put_Transaction RefSchema.get_Transaction.
Proof. read_back. Qed.

Lemma get_put_Payload : RefSchema.round_trips RefSchema.put_Payload RefSchema.get_Payload.
Proof. read_back. Qed.

Lemma parse_all_round_trip :
  forall (A : Type) (put_item : A -> bytes) (get_item : RefSchema.Parser A),
    RefSchema.round_trips put_item get_item ->
    forall a, RefSchema.parse_all get_item (put_item a) = Returned a.
Proof.
  intros A put_item get_item Hrt a. unfold RefSchema.parse_all.
  rewrite <- (app_nil_r (put_item a)). now rewrite Hrt.
Qed.

Lemma reference_lawful_ChaincodeProposalPayload :
  @Lawful protos.ChaincodeProposalPayload.t RefSchema.ChaincodeProposalPayload.
Proof. intros m. apply (parse_all_round_trip get_put_ChaincodeProposalPayload). Qed.

Lemma reference_lawful_ChaincodeActionPayload :
  @Lawful protos.ChaincodeActionPayload.t RefSchema.ChaincodeActionPayload.
Proof. intros m. apply (parse_all_round_trip get_put_ChaincodeActionPayload). Qed.

Lemma reference_lawful_Transaction : @Lawful protos.Transaction.t RefSchema.Transaction.
Proof. intros m. apply (parse_all_round_trip get_put_Transaction). Qed.

Lemma reference_lawful_Payload : @Lawful common.Payload.t RefSchema.Payload.
Proof. intros m. apply (parse_all_round_trip get_put_Payload). Qed.

(** * Worked examples *)

(** Two responses, 200 then 500: the message is built from the first. *)
Lemma build_assembles_example :
  RefSchema.build (Some Example.idContext) (Example.request (Some Example.entries))
    Example.unbuilt
  = (Returned Example.buffer, Example.built).
Proof.
  apply (@build_assembles_from_first_response
           RefSchema.ChaincodeProposalPayload RefSchema.ChaincodeActionPayload
           RefSchema.Transaction RefSchema.Payload
           Example.idContext (Example.request (Some Example.entries)) Example.unbuilt
           (Example.record (Some Example.entries)) Example.entries
           Example.response200 Example.original).
  - reflexivity.
  - reflexivity.
  - exists Example.response200. split; [left; reflexivity|reflexivity].
  - reflexivity.
  - apply reference_lawful_ChaincodeProposalPayload.
Defined.

(** A record that was never sent for endorsement, against the action that
    is already signed: NotEndorsedError, and the action keeps what it had. *)
Lemma build_absent_responses_example :
  RefSchema.build (Some Example.idContext) (Example.request None) Example.signed
  = (Thrown NotEndorsedError,
     Spec.remember_endorsement Example.signed (Example.request None)).
Proof.
  apply (proj1 (@build_absent_responses_not_endorsed
                  RefSchema.ChaincodeProposalPayload RefSchema.ChaincodeActionPayload
                  RefSchema.Transaction RefSchema.Payload
                  Example.idContext (Example.request None) Example.signed
                  (Example.record None) eq_refl)).
  reflexivity.
Defined.

(** A record whose responses array is empty: the error is the one for no
    valid endorsement, not NotEndorsedError. *)
Lemma build_empty_responses_no_valid_endorsements :
  fst (RefSchema.build (Some Example.idContext) (Example.request (Some []))
         Example.unbuilt)
  = Thrown NoValidEndorsementsError
  /\ Endorsement._proposalResponses (Example.record (Some [])) = Some []
  /\ NoValidEndorsementsError <> NotEndorsedError.
Proof.
  split; [reflexivity|split; [reflexivity|discriminate]].
Qed.

(** One response, status 500. *)
Lemma build_only_failures_example :
  fst (RefSchema.build (Some Example.idContext)
         (Example.request (Some [Some Example.response500])) Example.unbuilt)
  = Thrown NoValidEndorsementsError.
Proof.
  apply (@build_only_failures_no_valid_endorsements
           RefSchema.ChaincodeProposalPayload RefSchema.ChaincodeActionPayload
           RefSchema.Transaction RefSchema.Payload
           Example.idContext (Example.request (Some [Some Example.response500]))
           Example.unbuilt (Example.record (Some [Some Example.response500]))
           [Some Example.response500]).
  - reflexivity.
  - reflexivity.
  - discriminate.
  - intros entry [<-|[]]. reflexivity.
Defined.

(** The signed action rebuilt against a record with one 500 response: the
    build fails and the action has lost its payload and signature. *)
Lemma build_failure_after_reset_example :
  exists this',
    RefSchema.build (Some Example.idContext)
      (Example.request (Some [Some Example.response500])) Example.signed
    = (Thrown NoValidEndorsementsError, this')
    /\ this' = Commit._reset
                 (Spec.remember_endorsement Example.signed
                    (Example.request (Some [Some Example.response500])))
    /\ Commit.unbuilt this'
    /\ Commit.getSignedEnvelope this' = Thrown Commit.PreconditionError.
Proof.
  apply (@build_failure_after_reset
           RefSchema.ChaincodeProposalPayload RefSchema.ChaincodeActionPayload
           RefSchema.Transaction RefSchema.Payload
           Example.idContext (Example.request (Some [Some Example.response500]))
           Example.signed (Example.record (Some [Some Example.response500]))
           [Some Example.response500]).
  - reflexivity.
  - reflexivity.
  - intros entry [<-|[]]. reflexivity.
Defined.


(** Statuses 200 and 500: [build] returns, and the payload it returns
    holds one endorsement, the 200 response's. *)
Lemma build_endorsement_list_example :
  Commit.collect_endorsements Example.entries
  = [protos.ProposalResponse.endorsement Example.response200]
  /\ List.length (Commit.collect_endorsements Example.entries) = 1
  /\ exists buffer this' msg tx ta cap endorsed,
      RefSchema.build (Some Example.idContext) (Example.request (Some Example.entries))
        Example.unbuilt
      = (Returned buffer, this')
      /\ RefSchema.parse_all RefSchema.get_Payload buffer = Returned msg
      /\ RefSchema.parse_all RefSchema.get_Transaction (common.Payload.data msg)
         = Returned tx
      /\ protos.Transaction.actions tx = [ta]
      /\ RefSchema.parse_all RefSchema.get_ChaincodeActionPayload
           (protos.TransactionAction.payload ta) = Returned cap
      /\ protos.ChaincodeActionPayload.action cap = Some endorsed
      /\ protos.ChaincodeEndorsedAction.endorsements endorsed
         = [protos.ProposalResponse.endorsement Example.response200].
Proof.
  destruct (@build_endorsement_list
              RefSchema.ChaincodeProposalPayload RefSchema.ChaincodeActionPayload
              RefSchema.Transaction RefSchema.Payload
              reference_lawful_ChaincodeActionPayload
              reference_lawful_Transaction reference_lawful_Payload
              Example.entries) as (_ & _ & _ & _ & Hscenario).
  destruct (Hscenario Example.response200 Example.response500
              eq_refl eq_refl eq_refl) as (Hlist & Hlength & Hbuilt).
  split; [exact Hlist|split; [exact Hlength|]].
  apply (Hbuilt Example.idContext (Example.request (Some Example.entries))
           Example.unbuilt (Example.record (Some Example.entries)) Example.original).
  - reflexivity.
  - reflexivity.
  - apply reference_lawful_ChaincodeProposalPayload.
Defined.

(** Failures of the examples' orderers. *)
Lemma failed_returns_failure :
  forall label text envelope timeout,
    Spec.returns_failure envelope timeout (Example.failed label text).
Proof.
  intros label text envelope timeout.
  exists {| status := "FAILED"; message := Some text |}.
  split; [reflexivity|discriminate].
Defined.

(** Neither handler nor targets, on the signed action. *)
Lemma send_without_handler_or_targets_example :
  snd (Commit.send Example.signed Example.empty_request []) = []
  /\ Commit.send Example.signed Example.empty_request []
     = (Thrown (MissingParameterError "targets"), []).
Proof.
  destruct (@send_without_handler_or_targets Example.signed Example.empty_request []
              eq_refl eq_refl) as (Hnet & Herror).
  split; [exact Hnet|].
  apply (Herror Example.envelope). reflexivity.
Defined.

(** FAILED, FAILED, SUCCESS, and a fourth target: the third outcome is
    returned after exactly three attempts, the fourth is never sent to. *)
Lemma send_returns_first_success_example :
  Commit.send Example.signed
    (Example.to [Example.orderer1; Example.orderer2; Example.orderer4; Example.orderer5])
    []
  = (Returned {| status := "SUCCESS"; message := None |},
     Example.sent [Example.orderer1; Example.orderer2; Example.orderer4; Example.orderer5]
       [Example.orderer1; Example.orderer2; Example.orderer4]).
Proof.
  apply (@send_returns_first_success Example.signed
           (Example.to [Example.orderer1; Example.orderer2; Example.orderer4;
                        Example.orderer5])
           Example.envelope
           (map ByReference [Example.orderer1; Example.orderer2; Example.orderer4;
                             Example.orderer5])
           [Example.orderer1; Example.orderer2; Example.orderer4; Example.orderer5]
           [] eq_refl eq_refl eq_refl eq_refl
           [Example.orderer1; Example.orderer2]
           Example.orderer4 [Example.orderer5]
           {| status := "SUCCESS"; message := None |}).
  - reflexivity.
  - repeat constructor; apply failed_returns_failure.
  - reflexivity.
  - reflexivity.
Defined.

(** FAILED, a target whose [sendBroadcast] rejects, SUCCESS, FAILED: the
    third target is the first whose outcome has status SUCCESS, yet [send]
    raises the second target's error and never sends to the third. *)
Lemma send_raises_before_first_success :
  sendBroadcast Example.orderer1 Example.envelope (Some 3000%Z)
  = Returned {| status := "FAILED"; message := Some "m1"%string |}
  /\ sendBroadcast Example.orderer5 Example.envelope (Some 3000%Z)
     = Thrown (Error "REQUEST TIMEOUT")
  /\ sendBroadcast Example.orderer4 Example.envelope (Some 3000%Z)
     = Returned {| status := "SUCCESS"; message := None |}
  /\ Commit.send Example.signed
       (Example.to [Example.orderer1; Example.orderer5; Example.orderer4;
                    Example.orderer2]) []
     = (Thrown (Error "REQUEST TIMEOUT"),
        Example.sent [Example.orderer1; Example.orderer5; Example.orderer4;
                      Example.orderer2]
          [Example.orderer1; Example.orderer5]).
Proof.
  split; [reflexivity|]. split; [reflexivity|]. split; reflexivity.
Qed.

(** Three targets failing with messages m1, m2, m3: the outcome carrying
    m3 is returned, after all three were attempted. *)
Lemma send_last_failure_wins_example :
  Commit.send Example.signed
    (Example.to [Example.orderer1; Example.orderer2; Example.orderer3]) []
  = (Returned {| status := "FAILED"; message := Some "m3"%string |},
     Example.sent [Example.orderer1; Example.orderer2; Example.orderer3]
       [Example.orderer1; Example.orderer2; Example.orderer3]).
Proof.
  destruct (@send_last_failure_wins Example.signed
              (Example.to [Example.orderer1; Example.orderer2; Example.orderer3])
              Example.envelope
              (map ByReference [Example.orderer1; Example.orderer2; Example.orderer3])
              [Example.orderer1; Example.orderer2; Example.orderer3]
              [] eq_refl eq_refl eq_refl eq_refl) as (_ & Hall & _).
  destruct (Hall ltac:(discriminate)
              ltac:(repeat constructor; apply failed_returns_failure)
              Example.orderer1) as (rn & Hlast & Hsend).
  cbn in Hlast. injection Hlast as <-. exact Hsend.
Defined.

(** A target that answers UNKNOWN after one that failed: the outcome
    returned has status UNKNOWN although two targets were resolved and
    attempted. *)
Lemma send_unknown_from_a_target :
  getTargetCommitters (Commit.channel Example.signed)
    (map ByReference [Example.orderer1; Example.orderer6])
  = Returned [Example.orderer1; Example.orderer6]
  /\ Commit.send Example.signed (Example.to [Example.orderer1; Example.orderer6]) []
     = (Returned {| status := "UNKNOWN"; message := Some "no status"%string |},
        Example.sent [Example.orderer1; Example.orderer6]
          [Example.orderer1; Example.orderer6]).
Proof.
  split; reflexivity.
Qed.

(** A failure, then a target whose [sendBroadcast] rejects, then one that
    would accept: the rejection leaves [send], the third is never sent to. *)
Lemma send_propagates_transport_error_example :
  Commit.send Example.signed
    (Example.to [Example.orderer1; Example.orderer5; Example.orderer4]) []
  = (Thrown (Error "REQUEST TIMEOUT"),
     Example.sent [Example.orderer1; Example.orderer5; Example.orderer4]
       [Example.orderer1; Example.orderer5]).
Proof.
  apply (proj1 (@send_propagates_transport_error Example.signed
                  (Example.to [Example.orderer1; Example.orderer5; Example.orderer4])
                  Example.envelope
                  (map ByReference [Example.orderer1; Example.orderer5; Example.orderer4])
                  [Example.orderer1; Example.orderer5; Example.orderer4]
                  [] eq_refl eq_refl eq_refl eq_refl)
           [Example.orderer1] Example.orderer5 [Example.orderer4]
           (Error "REQUEST TIMEOUT")).
  - reflexivity.
  - repeat constructor; apply failed_returns_failure.
  - reflexivity.
Defined.

(** A single target whose [sendBroadcast] rejects, on a signed action with
    its targets given: [send] raises the transport error. *)
Lemma send_raises_for_a_target_failure :
  Commit.getSignedEnvelope Example.signed = Returned Example.envelope
  /\ targets (Example.to [Example.orderer5; Example.orderer4])
     = Some (map ByReference [Example.orderer5; Example.orderer4])
  /\ sendBroadcast Example.orderer5 Example.envelope (Some 3000%Z)
     = Thrown (Error "REQUEST TIMEOUT")
  /\ Commit.send Example.signed (Example.to [Example.orderer5; Example.orderer4]) []
     = (Thrown (Error "REQUEST TIMEOUT"),
        Example.sent [Example.orderer5; Example.orderer4] [Example.orderer5]).
Proof.
  repeat split.
Qed.

(** * Further properties of [build] *)

Lemma successful_has_success :
  forall entries, Spec.successful_responses entries <> [] -> Spec.has_success entries.
Proof.
  induction entries as [|[pr|] rest IH]; cbn [Spec.successful_responses]; intros Hne.
  - congruence.
  - destruct (Spec.is_success (Some pr)) eqn:Hs.
    + exists pr. split; [now left|exact Hs].
    + destruct (IH Hne) as (pr' & Hin & Hs'). exists pr'. split; [now right|exact Hs'].
  - destruct (IH Hne) as (pr' & Hin & Hs'). exists pr'. split; [now right|exact Hs'].
Qed.

Lemma has_success_filtered :
  forall entries,
    Spec.has_success entries <-> Spec.filtered_endorsements entries <> [].
Proof.
  intros entries. split.
  - intros Hok Hnil. apply (has_success_successful Hok).
    apply length_zero_iff_nil. rewrite <- filtered_endorsements_length, Hnil. reflexivity.
  - intros Hne. apply successful_has_success. intros Hnil. apply Hne.
    unfold Spec.filtered_endorsements. now rewrite Hnil.
Qed.

Lemma array_get_first :
  forall (A : Type) (a : list (option A)) (x : A),
    array_get a 0 = Some x <-> nth_error a 0 = Some (Some x).
Proof.
  intros A a x. unfold array_get.
  destruct (nth_error a 0) as [[y|]|]; split; congruence.
Qed.

(** The loop of [build] over two batches of responses is the two lists of
    endorsements one after the other. *)
Lemma filtered_endorsements_app :
  forall l1 l2,
    Spec.filtered_endorsements (l1 ++ l2)
    = (Spec.filtered_endorsements l1 ++ Spec.filtered_endorsements l2)%list.
Proof.
  intros l1 l2. unfold Spec.filtered_endorsements. rewrite <- map_app. f_equal.
  induction l1 as [|[pr|] rest IH]; cbn [app Spec.successful_responses].
  - reflexivity.
  - destruct (Spec.is_success (Some pr)); cbn [app]; now rewrite IH.
  - exact IH.
Qed.

Section More_build.

Context {PM_ChaincodeProposalPayload : ProtoMessage protos.ChaincodeProposalPayload.t}.
Context {PM_ChaincodeActionPayload : ProtoMessage protos.ChaincodeActionPayload.t}.
Context {PM_Transaction : ProtoMessage protos.Transaction.t}.
Context {PM_Payload : ProtoMessage common.Payload.t}.

Lemma build_outcome_returned :
  forall this request e entries first original,
    Spec.resolved_endorsement this request = Some e ->
    Endorsement._proposalResponses e = Some entries ->
    Spec.has_success entries ->
    nth_error entries 0 = Some (Some first) ->
    decode (Spec.original_payload_bytes e) = Returned original ->
    Spec.build_outcome this request
    = (Returned (toBuffer (Spec.final_payload e entries first original)),
       Spec.built this e (Spec.final_payload e entries first original)
         (toBuffer (Spec.final_payload e entries first original))).
Proof.
  intros this request e entries first original Hres Hrs Hok Hfirst Hdec.
  unfold Spec.build_outcome. rewrite Hres, Hrs.
  apply has_success_filtered in Hok.
  destruct (Spec.filtered_endorsements entries) as [|en ens]; [congruence|].
  apply array_get_first in Hfirst. now rewrite Hfirst, Hdec.
Qed.

(** X1.  [build] returns a payload exactly when an idContext is passed, a
    record is resolved, its responses are present with at least one of
    status 200, the entry at index 0 is not [null], and the original
    proposal payload decodes. *)
Theorem build_returns_iff :
  forall idContext request this,
    (exists buffer this',
        Commit.build idContext request this = (Returned buffer, this'))
    <-> ((exists i, idContext = Some i)
         /\ exists e entries first (original : protos.ChaincodeProposalPayload.t),
             Spec.resolved_endorsement this request = Some e
             /\ Endorsement._proposalResponses e = Some entries
             /\ Spec.has_success entries
             /\ nth_error entries 0 = Some (Some first)
             /\ decode (Spec.original_payload_bytes e) = Returned original).
Proof.
  intros idContext request this. split.
  - intros (buffer & this' & Hrun).
    destruct idContext as [i|];
      [|rewrite build_without_idContext in Hrun; discriminate].
    split; [now exists i|].
    rewrite build_unfold in Hrun. unfold Spec.build_outcome in Hrun.
    destruct (Spec.resolved_endorsement this request) as [e|]; [|discriminate].
    destruct (Endorsement._proposalResponses e) as [entries|] eqn:Hrs; [|discriminate].
    destruct (Spec.filtered_endorsements entries) as [|en ens] eqn:Hf; [discriminate|].
    destruct (array_get entries 0) as [first|] eqn:Hfirst; [|discriminate].
    destruct (decode (Spec.original_payload_bytes e)) as [original|err] eqn:Hdec;
      [|discriminate].
    exists e, entries, first, original. repeat split; try assumption.
    + apply has_success_filtered. rewrite Hf. discriminate.
    + now apply array_get_first.
  - intros ((i & ->) & e & entries & first & original & Hres & Hrs & Hok & Hfirst & Hdec).
    rewrite build_unfold.
    rewrite (build_outcome_returned _ _ Hres Hrs Hok Hfirst Hdec).
    eauto.
Qed.

(** X2.  What [build] returns is what it stores: the bytes are kept in
    [_payload], the message whose serialization they are is kept in
    [_action.payload], and the record built from is kept in [_endorsement]. *)
Theorem build_stores_what_it_returns :
  forall idContext request this buffer this',
    Commit.build idContext request this = (Returned buffer, this') ->
    Commit._payload this' = Some buffer
    /\ (exists msg,
           Commit.payload (Commit._action this') = Some msg /\ toBuffer msg = buffer)
    /\ Commit._endorsement this' = Spec.resolved_endorsement this request
    /\ Commit._endorsement this' <> None.
Proof.
  intros idContext request this buffer this' Hrun.
  destruct (build_returned_inv _ _ _ Hrun)
    as (e & entries & first & original & Hres & _ & _ & _ & Hbuf & ->).
  cbn. repeat split.
  - exists (Spec.final_payload e entries first original). now split.
  - now rewrite Hres.
  - discriminate.
Qed.

(** X3.  A record given to the constructor is used by a [build] whose
    request has none, with the result (payload or error, and object) of
    giving it in the request; a record in the request replaces the
    constructor's. *)
Theorem build_constructor_endorsement :
  forall idContext chaincodeName channel e e',
    Commit.build (Some idContext) {| endorsement := None |}
      (Commit.constructor chaincodeName channel (Some e))
    = Commit.build (Some idContext) {| endorsement := Some e |}
        (Commit.constructor chaincodeName channel None)
    /\ Commit.build (Some idContext) {| endorsement := Some e |}
         (Commit.constructor chaincodeName channel (Some e'))
       = Commit.build (Some idContext) {| endorsement := Some e |}
           (Commit.constructor chaincodeName channel None).
Proof.
  intros i chaincodeName channel e e'.
  rewrite !build_unfold. unfold Spec.build_outcome. cbn.
  destruct (Endorsement._proposalResponses e) as [entries|]; [|split; reflexivity].
  destruct (Spec.filtered_endorsements entries); [split; reflexivity|].
  destruct (array_get entries 0); [|split; reflexivity].
  destruct (decode (Spec.original_payload_bytes e)); split; reflexivity.
Qed.

Lemma remember_endorsement_fields :
  forall this request,
    Commit.chaincodeName (Spec.remember_endorsement this request) = Commit.chaincodeName this
    /\ Commit.channel (Spec.remember_endorsement this request) = Commit.channel this
    /\ Commit._endorsement (Spec.remember_endorsement this request)
       = Spec.resolved_endorsement this request.
Proof.
  intros this request. unfold Spec.remember_endorsement, Spec.resolved_endorsement.
  destruct (endorsement request); repeat split.
Qed.

(** X5.  [build] never changes the chaincode name or the channel of the
    action, whatever its outcome, so [toString] prints the same before and
    after. *)
Theorem build_keeps_identity :
  forall idContext request this,
    Commit.chaincodeName (snd (Commit.build idContext request this))
    = Commit.chaincodeName this
    /\ Commit.channel (snd (Commit.build idContext request this)) = Commit.channel this
    /\ Commit.toString (snd (Commit.build idContext request this)) = Commit.toString this.
Proof.
  intros idContext request this.
  assert (Hfields :
    Commit.chaincodeName (snd (Commit.build idContext request this))
    = Commit.chaincodeName this
    /\ Commit.channel (snd (Commit.build idContext request this)) = Commit.channel this).
  { destruct idContext as [i|]; [|now rewrite build_without_idContext].
    rewrite build_unfold. unfold Spec.build_outcome.
    destruct (remember_endorsement_fields this request) as (Hname & Hchannel & _).
    destruct (Spec.resolved_endorsement this request) as [e|]; [|now split].
    destruct (Endorsement._proposalResponses e) as [entries|]; [|now split].
    destruct (Spec.filtered_endorsements entries); [now split|].
    destruct (array_get entries 0); [|now split].
    destruct (decode (Spec.original_payload_bytes e)); now split. }
  destruct Hfields as (Hname & Hchannel).
  repeat split; try assumption.
  unfold Commit.toString. now rewrite Hname, Hchannel.
Qed.

(** X6.  The loop of [build] over responses that arrived in two batches
    collects the endorsements of the first batch followed by those of the
    second; none is dropped, repeated or reordered across the join. *)
Theorem collect_endorsements_app :
  forall l1 l2,
    Commit.collect_endorsements (l1 ++ l2)
    = (Commit.collect_endorsements l1 ++ Commit.collect_endorsements l2)%list
    /\ List.length (Commit.collect_endorsements (l1 ++ l2))
       <= List.length l1 + List.length l2.
Proof.
  intros l1 l2. rewrite !collect_endorsements_filtered. split.
  - apply filtered_endorsements_app.
  - rewrite filtered_endorsements_length, <- length_app.
    generalize (l1 ++ l2)%list as entries.
    induction entries as [|[pr|] rest IH]; cbn [Spec.successful_responses List.length].
    + lia.
    + destruct (Spec.is_success (Some pr)); cbn [List.length]; lia.
    + lia.
Qed.

Section More_lawful.

Hypothesis lawful_ChaincodeActionPayload : Lawful protos.ChaincodeActionPayload.t.
Hypothesis lawful_Transaction : Lawful protos.Transaction.t.
Hypothesis lawful_Payload : Lawful common.Payload.t.

(** X7.  Every payload [build] returns reads back with the header of the
    record's action metadata, and its one transaction action carries that
    header's signature header. *)
Theorem build_reads_back_header :
  forall idContext request this buffer this',
    Commit.build idContext request this = (Returned buffer, this') ->
    exists e msg tx ta,
      Spec.resolved_endorsement this request = Some e
      /\ decode buffer = Returned msg
      /\ common.Payload.header msg = Some (Endorsement.header (Endorsement._action e))
      /\ decode (common.Payload.data msg) = Returned tx
      /\ protos.Transaction.actions tx = [ta]
      /\ protos.TransactionAction.header ta
         = common.Header.getSignatureHeader (Endorsement.header (Endorsement._action e)).
Proof.
  intros idContext request this buffer this' Hrun.
  destruct (build_returned_inv _ _ _ Hrun)
    as (e & entries & first & original & Hres & _ & _ & _ & -> & _).
  exists e, (Spec.final_payload e entries first original),
    (Spec.transaction e entries first original),
    (Spec.transaction_action e entries first original).
  split; [exact Hres|]. split; [apply lawful_Payload|].
  split; [reflexivity|]. split; [apply lawful_Transaction|].
  split; reflexivity.
Qed.

(** X8.  The proposal-response-payload is read from the entry at index 0
    even when that entry is not a success: with a failed response first and
    a success later, the payload [build] returns pairs the failed
    response's payload with the endorsements of the later responses only. *)
Theorem build_payload_of_failed_first_entry :
  forall idContext request this e failed rest
         (original : protos.ChaincodeProposalPayload.t),
    Spec.resolved_endorsement this request = Some e ->
    Endorsement._proposalResponses e = Some (Some failed :: rest) ->
    Spec.is_success (Some failed) = false ->
    Spec.has_success rest ->
    decode (Spec.original_payload_bytes e) = Returned original ->
    exists buffer this' msg tx ta cap endorsed,
      Commit.build (Some idContext) request this = (Returned buffer, this')
      /\ decode buffer = Returned msg
      /\ decode (common.Payload.data msg) = Returned tx
      /\ protos.Transaction.actions tx = [ta]
      /\ decode (protos.TransactionAction.payload ta) = Returned cap
      /\ protos.ChaincodeActionPayload.action cap = Some endorsed
      /\ protos.ChaincodeEndorsedAction.proposal_response_payload endorsed
         = protos.ProposalResponse.payload failed
      /\ protos.ChaincodeEndorsedAction.endorsements endorsed
         = Commit.collect_endorsements rest.
Proof.
  intros idContext request this e failed rest original Hres Hrs Hfailed Hok Hdec.
  assert (Hall : Spec.has_success (Some failed :: rest)).
  { destruct Hok as (pr & Hin & Hs). exists pr. split; [now right|exact Hs]. }
  set (entries := Some failed :: rest) in *.
  exists (toBuffer (Spec.final_payload e entries failed original)),
    (Spec.built this e (Spec.final_payload e entries failed original)
       (toBuffer (Spec.final_payload e entries failed original))),
    (Spec.final_payload e entries failed original),
    (Spec.transaction e entries failed original),
    (Spec.transaction_action e entries failed original),
    (Spec.chaincode_action_payload entries failed original),
    (Spec.endorsed_action entries failed).
  split.
  { rewrite build_unfold. now apply build_outcome_returned. }
  split; [apply lawful_Payload|]. split; [apply lawful_Transaction|].
  split; [reflexivity|]. split; [apply lawful_ChaincodeActionPayload|].
  split; [reflexivity|]. split; [reflexivity|].
  rewrite collect_endorsements_filtered.
  cbn [Spec.endorsed_action protos.ChaincodeEndorsedAction.endorsements].
  unfold entries, Spec.filtered_endorsements. cbn [Spec.successful_responses].
  now rewrite Hfailed.
Qed.

End More_lawful.

End More_build.

(** * Further properties of [send] *)

(** The loop sends to a prefix of the committers, once each and in order. *)
Lemma broadcast_loop_trace :
  forall envelope timeout committers bad net,
    exists attempted rest,
      committers = (attempted ++ rest)%list
      /\ snd (Commit.broadcast_loop envelope timeout committers bad net)
         = (net ++ Spec.broadcasts envelope timeout attempted)%list
      /\ (committers <> [] -> attempted <> []).
Proof.
  intros envelope timeout committers bad net.
  destruct (committers_shape envelope timeout committers)
    as [Hall|(pre & t & post & Hsplit & Hpre & Hstop)].
  - destruct (broadcast_loop_all_fail bad net Hall) as (r & Hrun & _).
    exists committers, []. rewrite app_nil_r, Hrun. repeat split. auto.
  - exists (pre ++ [t])%list, post. rewrite <- app_assoc. split; [exact Hsplit|].
    rewrite Hsplit. rewrite broadcast_loop_stops_at by assumption.
    split; [reflexivity|]. intros _ Hnil. now destruct pre.
Qed.

Lemma trace_grows :
  forall (net more : Net), (net ++ more)%list = net -> more = [].
Proof.
  intros net more Heq. apply (app_inv_head net). now rewrite app_nil_r.
Qed.

(** X9.  With a handler in the request, [send] hands it the signed
    envelope and ends with whatever the handler returns or raises; the
    targets of the request, if any, are neither resolved nor sent to. *)
Theorem send_delegates_to_handler :
  forall this request envelope h net,
    Commit.getSignedEnvelope this = Returned envelope ->
    handler request = Some h ->
    Commit.send this request net
    = (commit h envelope (targets request) (requestTimeout request),
       (net ++ [CalledHandler h envelope (targets request) (requestTimeout request)])%list).
Proof.
  intros this request envelope h net Hsigned Hhandler.
  unfold Commit.send, bind, lift, call, ret. rewrite Hsigned, Hhandler.
  now destruct (commit h envelope (targets request) (requestTimeout request)).
Qed.

(** X10.  [send] makes no call at all (to a handler, the channel or a
    committer) exactly when the action has no signed envelope or the
    request has neither a handler nor targets. *)
Theorem send_contacts_nothing_iff :
  forall this request net,
    snd (Commit.send this request net) = net
    <-> (Commit.getSignedEnvelope this = Thrown Commit.PreconditionError
         \/ (handler request = None /\ targets request = None)).
Proof.
  intros this request net. split.
  - intros Hquiet.
    destruct (getSignedEnvelope_cases this) as [(envelope & Hsigned)|Hunsigned];
      [|now left].
    right. unfold Commit.send, bind, lift, call, ret in Hquiet. rewrite Hsigned in Hquiet.
    destruct (handler request) as [h|].
    + exfalso.
      destruct (commit h envelope (targets request) (requestTimeout request));
        cbn in Hquiet; apply trace_grows in Hquiet; discriminate.
    + split; [reflexivity|].
      destruct (targets request) as [request_targets|]; [exfalso|reflexivity].
      destruct (getTargetCommitters (Commit.channel this) request_targets)
        as [committers|err].
      * destruct (broadcast_loop_trace envelope (requestTimeout request) committers
                    {| status := "UNKNOWN"; message := None |}
                    (net ++ [ResolvedTargets (Commit.channel this) request_targets]))
          as (attempted & rest & _ & Htrace & _).
        rewrite Htrace, <- app_assoc in Hquiet.
        apply trace_grows in Hquiet. discriminate.
      * cbn in Hquiet. apply trace_grows in Hquiet. discriminate.
  - intros [Hunsigned|(Hhandler & Htargets)].
    + now rewrite send_without_envelope.
    + destruct (getSignedEnvelope_cases this) as [(envelope & Hsigned)|Hunsigned].
      * unfold Commit.send, bind, lift. now rewrite Hsigned, Hhandler, Htargets.
      * now rewrite send_without_envelope.
Qed.

(** X11.  When the channel cannot resolve the targets, [send] raises the
    channel's error after that one call; no committer is sent to. *)
Theorem send_raises_when_targets_do_not_resolve :
  forall this request envelope request_targets err net,
    Commit.getSignedEnvelope this = Returned envelope ->
    handler request = None ->
    targets request = Some request_targets ->
    getTargetCommitters (Commit.channel this) request_targets = Thrown err ->
    Commit.send this request net
    = (Thrown err, (net ++ [ResolvedTargets (Commit.channel this) request_targets])%list).
Proof.
  intros this request envelope request_targets err net Hsigned Hhandler Htargets Hfail.
  unfold Commit.send, bind, lift, call.
  now rewrite Hsigned, Hhandler, Htargets, Hfail.
Qed.

Section More_targets.

Variable this : Commit.t.
Variable request : CommitSendRequest.
Variable envelope : Envelope.t.
Variable request_targets : list Target.
Variable committers : list Committer.
Variable net : Net.

Hypothesis signed : Commit.getSignedEnvelope this = Returned envelope.
Hypothesis no_handler : handler request = None.
Hypothesis with_targets : targets request = Some request_targets.
Hypothesis resolution :
  getTargetCommitters (Commit.channel this) request_targets = Returned committers.

(** X12.  Whatever the targets answer, the calls [send] makes are the
    resolution of the targets followed by one broadcast to each committer
    of a prefix of the resolved list, in the order of the list, each with
    the action's signed envelope and the request's timeout.  When the list
    is not empty the prefix ends with a committer whose outcome (returned
    or raised) is the outcome of [send]; the committers before it returned
    outcomes of a status other than SUCCESS, and committers are left over
    only if its outcome was a SUCCESS or a raised error. *)
Theorem send_broadcasts_to_a_prefix :
  exists attempted rest,
    committers = (attempted ++ rest)%list
    /\ snd (Commit.send this request net)
       = (net ++ ResolvedTargets (Commit.channel this) request_targets
              :: Spec.broadcasts envelope (requestTimeout request) attempted)%list
    /\ (committers <> [] ->
        exists pre tl,
          attempted = (pre ++ [tl])%list
          /\ Forall (Spec.returns_failure envelope (requestTimeout request)) pre
          /\ fst (Commit.send this request net)
             = sendBroadcast tl envelope (requestTimeout request)
          /\ (rest = []
              \/ Spec.stops (sendBroadcast tl envelope (requestTimeout request)))).
Proof.
  rewrite (@send_targets_unfold this request envelope request_targets committers net
             signed no_handler with_targets resolution).
  set (started := (net ++ [ResolvedTargets (Commit.channel this) request_targets])%list).
  destruct (committers_shape envelope (requestTimeout request) committers)
    as [Hall|(pre & t & post & Hsplit & Hpre & Hstop)].
  - destruct (broadcast_loop_all_fail Spec.unknown_result started Hall)
      as (r & Hrun & _ & Hlast).
    exists committers, []. rewrite app_nil_r, Hrun. cbn [fst snd].
    split; [reflexivity|]. split; [unfold started; now rewrite <- app_assoc|].
    intros Hne. destruct (exists_last Hne) as (pre & tl & Hsplit).
    exists pre, tl. split; [exact Hsplit|].
    specialize (Hlast tl Hne). rewrite Hsplit, last_last in Hlast.
    rewrite Hsplit in Hall. apply Forall_app in Hall. destruct Hall as (Hpre & _).
    split; [exact Hpre|]. split; [now rewrite Hlast|now left].
  - exists (pre ++ [t])%list, post. rewrite <- app_assoc. split; [exact Hsplit|].
    rewrite Hsplit. rewrite broadcast_loop_stops_at by assumption. cbn [fst snd].
    split; [unfold started; now rewrite <- app_assoc|].
    intros _. exists pre, t. repeat split; auto.
Qed.

(** X13.  [send] returns an outcome of status SUCCESS exactly when some
    target returns it and every target before that one returned an outcome
    of another status. *)
Theorem send_returns_success_iff :
  forall r,
    (exists net', Commit.send this request net = (Returned r, net')
                  /\ status r = "SUCCESS"%string)
    <-> (exists pre tk post,
            committers = (pre ++ tk :: post)%list
            /\ Forall (Spec.returns_failure envelope (requestTimeout request)) pre
            /\ sendBroadcast tk envelope (requestTimeout request) = Returned r
            /\ status r = "SUCCESS"%string).
Proof.
  intros r.
  rewrite (@send_targets_unfold this request envelope request_targets committers net
             signed no_handler with_targets resolution).
  split.
  - intros (net' & Hrun & Hsuccess).
    destruct (committers_shape envelope (requestTimeout request) committers)
      as [Hall|(pre & t & post & Hsplit & Hpre & Hstop)].
    + exfalso.
      destruct (broadcast_loop_all_fail Spec.unknown_result
                  (net ++ [ResolvedTargets (Commit.channel this) request_targets]) Hall)
        as (r' & Hrun' & Hnil & Hlast).
      rewrite Hrun' in Hrun. injection Hrun as -> _.
      destruct committers as [|c cs].
      * rewrite (Hnil eq_refl) in Hsuccess. discriminate.
      * assert (Hne : c :: cs <> []) by discriminate.
        specialize (Hlast c Hne).
        destruct (exists_last Hne) as (pre & tl & Hsplit).
        rewrite Hsplit in Hall, Hlast. rewrite last_last in Hlast.
        apply Forall_app in Hall. destruct Hall as (_ & Htl).
        inversion Htl as [|? ? (r' & Hr' & Hs') _]; subst.
        rewrite Hlast in Hr'. injection Hr' as <-. contradiction.
    + rewrite Hsplit in Hrun. rewrite broadcast_loop_stops_at in Hrun by assumption.
      injection Hrun as Hout _.
      exists pre, t, post. repeat split; assumption.
  - intros (pre & tk & post & Hsplit & Hpre & Hk & Hsuccess).
    rewrite Hsplit.
    rewrite broadcast_loop_stops_at by (try assumption; rewrite Hk; exact Hsuccess).
    rewrite Hk. eauto.
Qed.

End More_targets.

(** * Further worked examples *)

(** The built example action holds the bytes that were returned. *)
Lemma build_stores_what_it_returns_example :
  Commit._payload Example.built = Some Example.buffer
  /\ (exists msg,
         Commit.payload (Commit._action Example.built) = Some msg
         /\ RefSchema.put_Payload msg = Example.buffer)
  /\ Commit._endorsement Example.built
     = Spec.resolved_endorsement Example.unbuilt (Example.request (Some Example.entries))
  /\ Commit._endorsement Example.built <> None.
Proof.
  apply (@build_stores_what_it_returns
           RefSchema.ChaincodeProposalPayload RefSchema.ChaincodeActionPayload
           RefSchema.Transaction RefSchema.Payload
           (Some Example.idContext) (Example.request (Some Example.entries))
           Example.unbuilt Example.buffer Example.built).
  reflexivity.
Defined.

(** The example payload read back: its header is the record's. *)
Lemma build_reads_back_header_example :
  exists e msg tx ta,
    Spec.resolved_endorsement Example.unbuilt (Example.request (Some Example.entries))
    = Some e
    /\ RefSchema.parse_all RefSchema.get_Payload Example.buffer = Returned msg
    /\ common.Payload.header msg = Some (Endorsement.header (Endorsement._action e))
    /\ RefSchema.parse_all RefSchema.get_Transaction (common.Payload.data msg)
       = Returned tx
    /\ protos.Transaction.actions tx = [ta]
    /\ protos.TransactionAction.header ta
       = common.Header.getSignatureHeader (Endorsement.header (Endorsement._action e)).
Proof.
  apply (@build_reads_back_header
           RefSchema.ChaincodeProposalPayload RefSchema.ChaincodeActionPayload
           RefSchema.Transaction RefSchema.Payload
           reference_lawful_Transaction reference_lawful_Payload
           (Some Example.idContext) (Example.request (Some Example.entries))
           Example.unbuilt Example.buffer Example.built).
  reflexivity.
Defined.

(** Status 500 first, 200 second: the payload of the 500 response with the
    endorsement of the 200 response. *)
Lemma build_payload_of_failed_first_entry_example :
  exists buffer this' msg tx ta cap endorsed,
    RefSchema.build (Some Example.idContext)
      (Example.request (Some Example.entries_failure_first)) Example.unbuilt
    = (Returned buffer, this')
    /\ RefSchema.parse_all RefSchema.get_Payload buffer = Returned msg
    /\ RefSchema.parse_all RefSchema.get_Transaction (common.Payload.data msg)
       = Returned tx
    /\ protos.Transaction.actions tx = [ta]
    /\ RefSchema.parse_all RefSchema.get_ChaincodeActionPayload
         (protos.TransactionAction.payload ta) = Returned cap
    /\ protos.ChaincodeActionPayload.action cap = Some endorsed
    /\ protos.ChaincodeEndorsedAction.proposal_response_payload endorsed
       = protos.ProposalResponse.payload Example.response500
    /\ protos.ChaincodeEndorsedAction.endorsements endorsed
       = Commit.collect_endorsements [Some Example.response200].
Proof.
  apply (@build_payload_of_failed_first_entry
           RefSchema.ChaincodeProposalPayload RefSchema.ChaincodeActionPayload
           RefSchema.Transaction RefSchema.Payload
           reference_lawful_ChaincodeActionPayload
           reference_lawful_Transaction reference_lawful_Payload
           Example.idContext (Example.request (Some Example.entries_failure_first))
           Example.unbuilt (Example.record (Some Example.entries_failure_first))
           Example.response500 [Some Example.response200] Example.original).
  - reflexivity.
  - reflexivity.
  - reflexivity.
  - exists Example.response200. split; [left; reflexivity|reflexivity].
  - apply reference_lawful_ChaincodeProposalPayload.
Defined.

(** A handler together with a target that would reject: only the handler
    is called, and its outcome is the result. *)
Lemma send_delegates_to_handler_example :
  Commit.send Example.signed (Example.through Example.relay [Example.orderer5]) []
  = (Returned {| status := "SUCCESS"; message := Some "relayed"%string |},
     [CalledHandler Example.relay Example.envelope
        (Some [ByReference Example.orderer5]) (Some 3000%Z)]).
Proof.
  apply (@send_delegates_to_handler Example.signed
           (Example.through Example.relay [Example.orderer5])
           Example.envelope Example.relay []); reflexivity.
Defined.

(** A target name the channel does not know. *)
Lemma send_raises_when_targets_do_not_resolve_example :
  Commit.send Example.signed Example.to_unknown_name []
  = (Thrown (Error "Committer not found"),
     [ResolvedTargets Example.channel [ByName "orderer9"]]).
Proof.
  apply (@send_raises_when_targets_do_not_resolve Example.signed Example.to_unknown_name
           Example.envelope [ByName "orderer9"] (Error "Committer not found") []);
    reflexivity.
Defined.

(** A failure, a success and a third target: the calls are a prefix of the
    list, ending with the committer whose outcome is returned. *)
Lemma send_broadcasts_to_a_prefix_example :
  exists attempted rest,
    [Example.orderer1; Example.orderer4; Example.orderer5] = (attempted ++ rest)%list
    /\ snd (Commit.send Example.signed
              (Example.to [Example.orderer1; Example.orderer4; Example.orderer5]) [])
       = ([] ++ ResolvedTargets (Commit.channel Example.signed)
                  (map ByReference
                     [Example.orderer1; Example.orderer4; Example.orderer5])
               :: Spec.broadcasts Example.envelope
                    (requestTimeout
                       (Example.to [Example.orderer1; Example.orderer4; Example.orderer5]))
                    attempted)%list
    /\ ([Example.orderer1; Example.orderer4; Example.orderer5] <> [] ->
        exists pre tl,
          attempted = (pre ++ [tl])%list
          /\ Forall (Spec.returns_failure Example.envelope
                       (requestTimeout
                          (Example.to
                             [Example.orderer1; Example.orderer4; Example.orderer5])))
               pre
          /\ fst (Commit.send Example.signed
                    (Example.to [Example.orderer1; Example.orderer4; Example.orderer5])
                    [])
             = sendBroadcast tl Example.envelope
                 (requestTimeout
                    (Example.to [Example.orderer1; Example.orderer4; Example.orderer5]))
          /\ (rest = []
              \/ Spec.stops
                   (sendBroadcast tl Example.envelope
                      (requestTimeout
                         (Example.to
                            [Example.orderer1; Example.orderer4; Example.orderer5]))))).
Proof.
  apply (@send_broadcasts_to_a_prefix Example.signed
           (Example.to [Example.orderer1; Example.orderer4; Example.orderer5])
           Example.envelope
           (map ByReference [Example.orderer1; Example.orderer4; Example.orderer5])
           [Example.orderer1; Example.orderer4; Example.orderer5] []);
    reflexivity.
Defined.

(** The same request returns the success of its second target. *)
Lemma send_returns_success_iff_example :
  exists net',
    Commit.send Example.signed
      (Example.to [Example.orderer1; Example.orderer4; Example.orderer5]) []
    = (Returned {| status := "SUCCESS"; message := None |}, net')
    /\ status {| status := "SUCCESS"; message := None |} = "SUCCESS"%string.
Proof.
  apply (proj2 (@send_returns_success_iff Example.signed
                  (Example.to [Example.orderer1; Example.orderer4; Example.orderer5])
                  Example.envelope
                  (map ByReference [Example.orderer1; Example.orderer4; Example.orderer5])
                  [Example.orderer1; Example.orderer4; Example.orderer5] []
                  eq_refl eq_refl eq_refl eq_refl
                  {| status := "SUCCESS"; message := None |})).
  exists [Example.orderer1], Example.orderer4, [Example.orderer5].
  repeat split. repeat constructor. apply failed_returns_failure.
Defined.
